(** * py-pglite: the PGlite process manager (src/py_pglite/manager.py)

    A shallow embedding of [PGliteManager]: the manager object and the
    part of the operating system it talks to are one explicit state
    [sys]; every method is a function [sys -> outcome _] written in a
    small exception monad that follows Python's [try]/[except]/[finally].
    What the operating system, the child process, psutil and the socket
    layer answer is given by an [environ] of oracles that may inspect the
    whole history, so every theorem quantified over [environ] holds for
    every behaviour of the outside world.

    Time is counted in milliseconds ([time.time()] is [now]); floating
    point rounding is not modelled. *)

From Stdlib Require Import ZArith String Ascii List Bool Lia DecimalString.
Import ListNotations.
Local Open Scope string_scope.
Local Open Scope Z_scope.

(** ** Strings *)

(** Python's [needle in hay] on two [str]: substring containment. *)
Fixpoint str_in (needle hay : string) : bool :=
  prefix needle hay ||
  match hay with
  | EmptyString => false
  | String _ rest => str_in needle rest
  end.

(** [f"{n}"] for an [int]. *)
Definition show_Z (n : Z) : string := NilZero.string_of_int (Z.to_int n).

(** Truth value of a [str | None]. *)
Definition truthy_str (o : option string) : bool :=
  match o with
  | Some EmptyString => false
  | Some _ => true
  | None => false
  end.

(** ** Exceptions, events, state *)

Definition pid := Z.

(** The exceptions that can reach the manager; all are subclasses of
    [Exception].  [OSError] stands for its subclasses as well
    ([FileNotFoundError], [PermissionError], ...), [UnicodeDecodeError]
    is a [ValueError] in Python and kept apart here, [TimeoutExpired] is
    [subprocess.TimeoutExpired], the last three are psutil's. *)
Inductive exn : Type :=
| RuntimeError (msg : string)
| OSError (msg : string)
| ValueError (msg : string)
| TypeError (msg : string)
| OverflowError (msg : string)
| UnicodeDecodeError (msg : string)
| TimeoutExpired
| CalledProcessError
| NoSuchProcess
| AccessDenied
| PsTimeoutExpired.

(** [f"{e}"] *)
Definition exn_message (e : exn) : string :=
  match e with
  | RuntimeError m | OSError m | ValueError m | TypeError m
  | OverflowError m | UnicodeDecodeError m => m
  | TimeoutExpired => "timed out"
  | CalledProcessError => "returned non-zero exit status"
  | NoSuchProcess => "process no longer exists"
  | AccessDenied => "access denied"
  | PsTimeoutExpired => "timeout"
  end.

Inductive level : Type := DEBUG | INFO | WARNING | ERROR.

(** What the manager does to the outside world, in the order it does it. *)
Inductive event : Type :=
| EvLog (l : level) (msg : string)
| EvPsKill (p : pid)                       (* psutil: proc.kill() *)
| EvPsWait (p : pid) (timeout_ms : Z)      (* psutil: proc.wait(timeout=5) *)
| EvUnlink (path : string)
| EvProvision (dir : string)               (* _setup_work_dir *)
| EvChdir (dir : string)
| EvNpmInstall (dir : string)
| EvSpawn (p : pid) (in_dir : string) (node_options node_path : option string)
| EvCommunicate (p : pid) (timeout_ms : Z)
| EvConnect (path : string)
| EvSleep (ms : Z)
| EvTerminate (p : pid)
| EvKill (p : pid)
| EvWait (p : pid) (timeout_ms : option Z)
| EvProbe (dsn : string) (ok : bool).      (* utils.check_connection *)

(** The manager's fields ([process], [work_dir], [_original_cwd]) and the
    process-wide state it reads and writes: the clock, the current
    working directory, and the history of its actions (newest first). *)
Record sys : Type := mkSys {
  process : option pid;
  work_dir : option string;
  _original_cwd : option string;
  now : Z;
  cwd : string;
  trace : list event
}.

Definition set_process (p : option pid) (s : sys) : sys :=
  mkSys p (work_dir s) (_original_cwd s) (now s) (cwd s) (trace s).
Definition set_work_dir (d : option string) (s : sys) : sys :=
  mkSys (process s) d (_original_cwd s) (now s) (cwd s) (trace s).
Definition set_original_cwd (d : option string) (s : sys) : sys :=
  mkSys (process s) (work_dir s) d (now s) (cwd s) (trace s).
Definition set_cwd (d : string) (s : sys) : sys :=
  mkSys (process s) (work_dir s) (_original_cwd s) (now s) d (trace s).
Definition record (e : event) (s : sys) : sys :=
  mkSys (process s) (work_dir s) (_original_cwd s) (now s) (cwd s) (e :: trace s).
Definition advance (ms : Z) (s : sys) : sys :=
  mkSys (process s) (work_dir s) (_original_cwd s) (now s + Z.max 0 ms) (cwd s) (trace s).

(** A freshly constructed manager ([__init__]) at time 0. *)
Definition fresh (dir : string) : sys := mkSys None None None 0 dir [].

(** ** Configuration *)

(** The fields of [PGliteConfig] the manager reads; [timeout] is in
    seconds. *)
Record PGliteConfig : Type := mkConfig {
  socket_path : string;
  timeout : Z;
  cleanup_on_exit : bool;
  cfg_work_dir : option string;
  node_options : option string;
  auto_install_deps : bool;
  node_modules_check : bool
}.

(** Modelled from the spec: [config.get_connection_string], [config.get_dsn]
    and [config.get_psycopg_uri] live in config.py, which is not among the
    sources.  The spec says the derivation "is delegated to configuration"
    and that the result is "a string referencing the configured endpoint
    path"; that is all this interface fixes. *)
Record ConfigFormat : Type := mkFormat {
  config_get_connection_string : PGliteConfig -> string;
  config_get_dsn : PGliteConfig -> string;
  config_get_psycopg_uri : PGliteConfig -> string;
  format_references_endpoint : forall c,
    str_in (socket_path c) (config_get_connection_string c) = true /\
    str_in (socket_path c) (config_get_dsn c) = true /\
    str_in (socket_path c) (config_get_psycopg_uri c) = true
}.

(** ** The outside world *)

(** One entry of [psutil.process_iter(["pid", "name", "cmdline", "cwd"])];
    psutil puts [None] where it was denied access. *)
Record proc_info : Type := mkProc {
  pi_pid : pid;
  pi_cmdline : option (list string);
  pi_cwd : option string
}.

Record environ : Type := mkEnv {
  (* str(Path(p).parent) *)
  path_parent : string -> string;
  process_iter : sys -> list proc_info;
  (* proc.kill(), proc.wait(timeout=5) of psutil: the exception, if any *)
  ps_kill : sys -> pid -> option exn;
  ps_wait : sys -> pid -> option exn;
  (* Path.exists(): the answer, or the OSError it lets through (it
     answers False only for a missing file or path component) *)
  path_exists : sys -> string -> bool + exn;
  (* Path.unlink(): the exception, if any *)
  unlink : sys -> string -> option exn;
  (* directory and file creation of _setup_work_dir: the directory when
     none is configured (mkdtemp), or the error *)
  provision : sys -> option string -> string + exn;
  (* subprocess.run(["npm", "install"], check=True, timeout=60): its stdout *)
  npm_install : sys -> string -> string + exn;
  find_pglite_modules : sys -> string -> option string;
  (* subprocess.Popen(["node", "pglite_manager.js"], ...) *)
  popen : sys -> pid + exn;
  (* Popen.poll() is not None *)
  exited : sys -> pid -> bool;
  (* reading the text-mode pipe to its end: what it holds, or the
     exception of the read (UnicodeDecodeError for bytes that are not
     text), and how long the read takes *)
  child_output : sys -> pid -> (string + exn) * Z;
  (* connect() on the unix socket: success, and how long it takes *)
  connect : sys -> string -> bool * Z;
  (* Popen.terminate() / Popen.kill(): the exception, if any *)
  send_signal : sys -> pid -> option exn;
  (* how long after now the child is reaped; None: never *)
  exits_in : sys -> pid -> option Z;
  (* utils.check_connection(dsn) *)
  check_connection : sys -> string -> bool + exn;
  (* os.chdir(dir): the exception, if any *)
  chdir_error : sys -> string -> option exn;
  (* os.getcwd(): the exception, if any (the directory may be gone) *)
  getcwd_error : sys -> option exn
}.

(** ** Outcomes and the exception monad *)

(** A call returns, raises, never comes back ([Hangs]), or was cut short
    by the bound on loop iterations of this model ([Unfinished];
    [start_finishes] shows that [start] never is). *)
Inductive outcome (A : Type) : Type :=
| Returned (a : A) (s : sys)
| Raised (e : exn) (s : sys)
| Hangs (s : sys)
| Unfinished (s : sys).

Arguments Returned {A} a s.
Arguments Raised {A} e s.
Arguments Hangs {A} s.
Arguments Unfinished {A} s.

Definition final {A} (o : outcome A) : sys :=
  match o with
  | Returned _ s | Raised _ s | Hangs s | Unfinished s => s
  end.

(** The state in which the call hands control back to its caller. *)
Definition exit_state {A} (o : outcome A) : option sys :=
  match o with
  | Returned _ s | Raised _ s => Some s
  | Hangs _ | Unfinished _ => None
  end.

Definition M (A : Type) : Type := sys -> outcome A.

Definition ret {A} (a : A) : M A := fun s => Returned a s.

Definition raise {A} (e : exn) : M A := fun s => Raised e s.

Definition bind {A B} (m : M A) (k : A -> M B) : M B :=
  fun s =>
    match m s with
    | Returned a s' => k a s'
    | Raised e s' => Raised e s'
    | Hangs s' => Hangs s'
    | Unfinished s' => Unfinished s'
    end.

Declare Scope py_scope.
Delimit Scope py_scope with py.
Notation "x <- m ;; k" := (bind m (fun x => k))
  (at level 61, m at next level, right associativity) : py_scope.
Notation "m ;; k" := (bind m (fun _ => k))
  (at level 61, right associativity) : py_scope.
Local Open Scope py_scope.

(** [try: m  except ...: h e]; the handler answers [None] for an
    exception none of its [except] clauses names. *)
Definition try_except {A} (m : M A) (h : exn -> option (M A)) : M A :=
  fun s =>
    match m s with
    | Raised e s' =>
        match h e with
        | Some k => k s'
        | None => Raised e s'
        end
    | o => o
    end.

(** [try: m  finally: fin] *)
Definition try_finally {A} (m : M A) (fin : M unit) : M A :=
  fun s =>
    match m s with
    | Returned a s' => (fin ;; ret a) s'
    | Raised e s' => (fin ;; raise e) s'
    | Hangs s' => Hangs s'
    | Unfinished s' => Unfinished s'
    end.

Definition gets {A} (f : sys -> A) : M A := fun s => Returned (f s) s.
Definition modify (f : sys -> sys) : M unit := fun s => Returned tt (f s).
Definition emit (e : event) : M unit := modify (record e).
Definition log (l : level) (msg : string) : M unit := emit (EvLog l msg).

(** A call into the outside world: the answer is taken in the state of
    the call, then the call is recorded. *)
Definition syscall {A} (answer : sys -> A) (e : event) : M A :=
  r <- gets answer ;; emit e ;; ret r.

Definition raise_if (r : option exn) : M unit :=
  match r with
  | Some e => raise e
  | None => ret tt
  end.

(** The longest sleep [time.sleep] can represent: it converts the
    seconds to a 64-bit count of nanoseconds, so 9223372036854 ms is the
    last whole millisecond that fits. *)
Definition sleep_max : Z := 9223372036854.

(** What [time.sleep(ms / 1000)] raises instead of sleeping: the
    conversion is checked first, the sign after it. *)
Definition sleep_error (ms : Z) : option exn :=
  if (ms <? - sleep_max) || (sleep_max <? ms)
  then Some (OverflowError "timestamp too large to convert to C _PyTime_t")
  else if ms <? 0 then Some (ValueError "sleep length must be non-negative")
  else None.

(** [time.sleep(ms / 1000)] *)
Definition sleep (ms : Z) : M unit :=
  match sleep_error ms with
  | Some e => raise e
  | None => emit (EvSleep ms) ;; modify (advance ms)
  end.

Fixpoint for_each {A} (body : A -> M unit) (l : list A) : M unit :=
  match l with
  | [] => ret tt
  | x :: rest => body x ;; for_each body rest
  end.

(** [range(n)] *)
Definition py_range (n : Z) : list Z := map Z.of_nat (seq 0 (Z.to_nat n)).

(** ** Calls into the operating system *)

Section Child.

Variable env : environ.

(** [Path(path).exists()] *)
Definition exists_ (path : string) : M bool :=
  r <- gets (fun s => path_exists env s path) ;;
  match r with
  | inl b => ret b
  | inr e => raise e
  end.

(** [os.getcwd()] *)
Definition getcwd : M string :=
  r <- gets (getcwd_error env) ;;
  match r with
  | Some e => raise e
  | None => gets cwd
  end.

(** [os.chdir(dir)]; [EvChdir] records a change that took place. *)
Definition chdir (dir : string) : M unit :=
  r <- gets (fun s => chdir_error env s dir) ;;
  match r with
  | Some e => raise e
  | None => emit (EvChdir dir) ;; modify (set_cwd dir)
  end.

(** [Popen.terminate()] *)
Definition terminate (p : pid) : M unit :=
  r <- syscall (fun s => send_signal env s p) (EvTerminate p) ;; raise_if r.

(** [Popen.kill()] *)
Definition kill (p : pid) : M unit :=
  r <- syscall (fun s => send_signal env s p) (EvKill p) ;; raise_if r.

(** [Popen.wait(timeout=t)]: comes back when the child is reaped, raises
    [TimeoutExpired] when a given bound passes first, and without a bound
    waits for as long as it takes. *)
Definition wait (p : pid) (timeout_ms : option Z) : M unit :=
  r <- syscall (fun s => exits_in env s p) (EvWait p timeout_ms) ;;
  match r, timeout_ms with
  | Some d, None => modify (advance d)
  | Some d, Some t =>
      if d <=? t then modify (advance d)
      else modify (advance t) ;; raise TimeoutExpired
  | None, Some t => modify (advance t) ;; raise TimeoutExpired
  | None, None => fun s => Hangs s
  end.

(** [Popen.communicate(timeout=t)[0]]: the output, the exception of
    the read, or [TimeoutExpired] when the read takes longer than [t]. *)
Definition communicate (p : pid) (timeout_ms : Z) : M string :=
  r <- syscall (fun s => child_output env s p) (EvCommunicate p timeout_ms) ;;
  if snd r <=? timeout_ms then
    modify (advance (snd r)) ;;
    match fst r with
    | inl out => ret out
    | inr e => raise e
    end
  else modify (advance timeout_ms) ;; raise TimeoutExpired.

(** The connect-and-close handshake of the readiness loop, under
    [settimeout(1)]; [false] stands for the [OSError]. *)
Definition handshake (path : string) : M bool :=
  r <- syscall (fun s => connect env s path) (EvConnect path) ;;
  modify (advance (Z.min 1000 (snd r))) ;; ret (fst r).

End Child.

(** ** PGliteManager *)

Section Manager.

Variable cfg : PGliteConfig.
Variable env : environ.

Definition launcher_name : string := "pglite_manager.js".

(** The workspace files themselves are of no concern here: the call
    yields the directory or fails. *)
Definition _setup_work_dir : M string :=
  r <- gets (fun s => provision env s (cfg_work_dir cfg)) ;;
  match r with
  | inl d =>
      let d := match cfg_work_dir cfg with Some w => w | None => d end in
      emit (EvProvision d) ;; ret d
  | inr e => raise e
  end.

(** [exists()] is called before the [try]. *)
Definition _cleanup_socket : M unit :=
  present <- exists_ env (socket_path cfg) ;;
  if (present : bool) then
    try_except
      (r <- syscall (fun s => unlink env s (socket_path cfg))
                    (EvUnlink (socket_path cfg)) ;;
       raise_if r ;;
       log INFO ("Cleaned up socket at " ++ socket_path cfg))
      (fun e => Some (log WARNING ("Failed to clean up socket: " ++ exn_message e)))
  else ret tt.

(** [proc.info["cmdline"] and any("pglite_manager.js" in cmd for cmd in ...)] *)
Definition names_launcher (p : proc_info) : bool :=
  match pi_cmdline p with
  | Some cmds => existsb (str_in launcher_name) cmds
  | None => false
  end.

(** [my_socket_dir in proc_cwd or proc_cwd in my_socket_dir]; [in] on
    [None] is a [TypeError]. *)
Definition dir_conflict (my_socket_dir : string) (proc_cwd : option string) : M bool :=
  match proc_cwd with
  | Some c => ret (str_in my_socket_dir c || str_in c my_socket_dir)
  | None => raise (TypeError "argument of type 'NoneType' is not iterable")
  end.

(** The body of the [for proc in psutil.process_iter(...)] loop. *)
Definition reap_one (my_socket_dir : string) (p : proc_info) : M unit :=
  if names_launcher p then
    try_except
      (hit <- dir_conflict my_socket_dir (pi_cwd p) ;;
       if hit then
         log INFO ("Killing existing PGlite process: " ++ show_Z (pi_pid p)) ;;
         r <- syscall (fun s => ps_kill env s (pi_pid p)) (EvPsKill (pi_pid p)) ;;
         raise_if r ;;
         r <- syscall (fun s => ps_wait env s (pi_pid p)) (EvPsWait (pi_pid p) 5000) ;;
         raise_if r
       else ret tt)
      (fun e =>
         match e with
         | NoSuchProcess | AccessDenied => Some (ret tt)
         | _ => None
         end)
  else ret tt.

Definition my_socket_dir : string := path_parent env (socket_path cfg).

Definition _kill_existing_processes : M unit :=
  try_except
    (procs <- gets (process_iter env) ;;
     for_each (reap_one my_socket_dir) procs)
    (fun e =>
       Some (log WARNING ("Error killing existing PGlite processes: " ++ exn_message e))).

Definition _install_dependencies (wd : string) : M unit :=
  if negb (auto_install_deps cfg) then ret tt
  else
    missing <- (if node_modules_check cfg
                then present <- exists_ env (wd ++ "/node_modules") ;;
                     ret (negb present)
                else ret false) ;;
    if (missing : bool) then
      log INFO "Installing npm dependencies..." ;;
      r <- syscall (fun s => npm_install env s wd) (EvNpmInstall wd) ;;
      match r with
      | inl out => log INFO ("npm install completed: " ++ out)
      | inr e => raise e
      end
    else ret tt.

Definition timeout_ms : Z := 1000 * timeout cfg.

Definition died_message (output : string) : string :=
  "PGlite process died during startup. Output: " ++ output.

Definition timeout_message : string :=
  "PGlite server failed to start within " ++ show_Z (timeout cfg) ++ " seconds".

(** [stdout[:1000] if stdout else "No output"] *)
Definition limit_output (stdout : string) : string :=
  match stdout with
  | EmptyString => "No output"
  | _ => substring 0 1000 stdout
  end.

(** The [if self.process.poll() is not None:] branch of the loop. *)
Definition child_died (p : pid) : M unit :=
  output <- try_except
              (stdout <- communicate env p 2000 ;; ret (limit_output stdout))
              (fun e =>
                 match e with
                 | TimeoutExpired => Some (ret "Process output timeout")
                 | _ => None
                 end) ;;
  raise (RuntimeError (died_message output)).

(** The [else:] branch of the [while] loop. *)
Definition startup_timed_out (p : pid) : M unit :=
  gone <- gets (fun s => exited env s p) ;;
  (if negb gone then
     log WARNING "PGlite server startup timeout, terminating..." ;;
     terminate env p ;;
     try_except
       (wait env p (Some 5000))
       (fun e =>
          match e with
          | TimeoutExpired =>
              Some (log WARNING "Force killing PGlite process..." ;;
                    kill env p ;;
                    wait env p None)
          | _ => None
          end)
   else ret tt) ;;
  raise (RuntimeError timeout_message).

(** [while time.time() - start_time < self.config.timeout: ... else: ...]
    with [n] bounding the number of iterations.  The loop is left by
    [break] (it returns), by an exception, or through its [else]. *)
Fixpoint wait_startup (n : nat) (p : pid) (start_time : Z) (ready_logged : bool)
  : M unit :=
  t <- gets now ;;
  if t - start_time <? timeout_ms then
    match n with
    | O => fun s => Unfinished s
    | S n' =>
        gone <- gets (fun s => exited env s p) ;;
        if (gone : bool) then child_died p
        else
          present <- exists_ env (socket_path cfg) ;;
          if present && negb ready_logged then
            log INFO "PGlite socket created, server should be ready..." ;;
            ok <- handshake env (socket_path cfg) ;;
            if (ok : bool) then log INFO "PGlite server started successfully"
            else sleep 500 ;; wait_startup n' p start_time true
          else sleep 500 ;; wait_startup n' p start_time ready_logged
    end
  else startup_timed_out p.

(** Every iteration sleeps half a second, so one iteration per
    millisecond of the timeout is more than the loop can use. *)
Definition startup_bound : nat := S (Z.to_nat timeout_ms).

(** The [try:] block of [start], entered in the work directory [wd]. *)
Definition launch (wd : string) : M unit :=
  _install_dependencies wd ;;
  (if truthy_str (node_options cfg)
   then log INFO ("Using custom NODE_OPTIONS: " ++
                  match node_options cfg with Some o => o | None => EmptyString end)
   else ret tt) ;;
  node_modules_path <- gets (fun s => find_pglite_modules env s wd) ;;
  match node_modules_path with
  | Some m => log INFO ("Setting NODE_PATH to: " ++ m)
  | None => ret tt
  end ;;
  log INFO "Starting PGlite server..." ;;
  r <- gets (popen env) ;;
  match r with
  | inr e => raise e
  | inl p =>
      dir <- gets cwd ;;
      emit (EvSpawn p dir
              (if truthy_str (node_options cfg) then node_options cfg else None)
              node_modules_path) ;;
      modify (set_process (Some p)) ;;
      start_time <- gets now ;;
      wait_startup startup_bound p start_time false
  end.

(** The [finally:] clause of [start]. *)
Definition restore_cwd : M unit :=
  original <- gets _original_cwd ;;
  if truthy_str original
  then chdir env (match original with Some d => d | None => EmptyString end)
  else ret tt.

Definition start : M unit :=
  h <- gets process ;;
  match h with
  | Some _ => log WARNING "PGlite process already running"
  | None =>
      _kill_existing_processes ;;
      _cleanup_socket ;;
      wd <- _setup_work_dir ;;
      modify (set_work_dir (Some wd)) ;;
      here <- getcwd env ;;
      modify (set_original_cwd (Some here)) ;;
      chdir env wd ;;
      try_finally (launch wd) restore_cwd
  end.

(** The [try: ... except Exception as e: ...] block of [stop]. *)
Definition shut_down (p : pid) : M unit :=
  try_except
    (log DEBUG "Sending SIGTERM to PGlite process..." ;;
     terminate env p ;;
     try_except
       (wait env p (Some 5000) ;;
        log INFO "PGlite server stopped gracefully")
       (fun e =>
          match e with
          | TimeoutExpired =>
              Some (log WARNING
                      "PGlite process didn't stop gracefully, force killing..." ;;
                    kill env p ;;
                    try_except
                      (wait env p (Some 2000) ;;
                       log INFO "PGlite server stopped forcefully")
                      (fun e' =>
                         match e' with
                         | TimeoutExpired =>
                             Some (log ERROR "Failed to kill PGlite process!")
                         | _ => None
                         end))
          | _ => None
          end))
    (fun e => Some (log WARNING ("Error stopping PGlite: " ++ exn_message e))).

Definition stop : M unit :=
  h <- gets process ;;
  match h with
  | None => ret tt
  | Some p =>
      try_finally
        (shut_down p)
        (modify (set_process None) ;;
         if cleanup_on_exit cfg then _cleanup_socket else ret tt)
  end.

Definition is_running : M bool :=
  h <- gets process ;;
  match h with
  | None => ret false
  | Some p => gone <- gets (fun s => exited env s p) ;; ret (negb gone)
  end.

Definition not_running : exn :=
  RuntimeError "PGlite server is not running. Call start() first.".

Section Accessors.

Variable fmt : ConfigFormat.

Definition get_connection_string : M string :=
  up <- is_running ;;
  if negb up then raise not_running
  else ret (config_get_connection_string fmt cfg).

Definition get_dsn : M string :=
  up <- is_running ;;
  if negb up then raise not_running
  else ret (config_get_dsn fmt cfg).

Definition get_psycopg_uri : M string :=
  up <- is_running ;;
  if negb up then raise not_running
  else ret (config_get_psycopg_uri fmt cfg).

(** One pass of [for attempt in range(max_retries)]; [true] is the
    [return True] inside the [try]. *)
Definition attempt_once (max_retries : Z) (attempt : Z) : M bool :=
  try_except
    (r <- gets (fun s => check_connection env s (config_get_dsn fmt cfg)) ;;
     emit (EvProbe (config_get_dsn fmt cfg)
                   (match r with inl true => true | _ => false end)) ;;
     match r with
     | inl true =>
         log INFO ("Database ready after " ++ show_Z (attempt + 1) ++ " attempts") ;;
         sleep 200 ;;
         ret true
     | inl false => ret false
     | inr e => raise e
     end)
    (fun e =>
       Some (log WARNING ("Database not ready (attempt " ++ show_Z (attempt + 1) ++
                          "/" ++ show_Z max_retries ++ "): " ++ exn_message e) ;;
             ret false)).

Fixpoint attempts (max_retries delay : Z) (todo : list Z) : M bool :=
  match todo with
  | [] => ret false
  | attempt :: rest =>
      ready <- attempt_once max_retries attempt ;;
      if (ready : bool) then ret true
      else
        (if attempt <? max_retries - 1 then sleep delay
         else log ERROR ("Database failed to become ready after " ++
                         show_Z max_retries ++ " attempts")) ;;
        attempts max_retries delay rest
  end.

Definition wait_for_ready_basic (max_retries delay : Z) : M bool :=
  attempts max_retries delay (py_range max_retries).

Definition wait_for_ready (max_retries delay : Z) : M bool :=
  wait_for_ready_basic max_retries delay.

End Accessors.

Definition restart : M unit :=
  up <- is_running ;;
  (if (up : bool) then stop else ret tt) ;;
  start.

(** [__enter__] starts the server and hands back the manager itself;
    [__exit__] stops it and returns [None]. *)
Definition __enter__ : M unit := start.

Definition __exit__ : M unit := stop.

End Manager.

(** ** The files of the work directory *)

(** An entry of [SUPPORTED_EXTENSIONS] (extensions.py): the npm module
    and the name it exports. *)
Record ext_info : Type := mkExt {
  ext_module : string;
  ext_name : string
}.

(** What [_setup_work_dir] writes, in the order it writes it:
    package.json (the fixed dictionary, with the package version) and
    the launcher script. *)
Inductive file_write : Type :=
| WritePackageJson (path : string) (version : string)
| WriteLauncher (path : string) (js_content : string).

(** The file part of [_setup_work_dir] either gets to its end or stops
    at [SUPPORTED_EXTENSIONS[ext_name]] with a [KeyError]; what was
    written before stays written. *)
Inductive setup_result : Type :=
| SetupDone (written : list file_write)
| SetupKeyError (missing : string) (written : list file_write).

Definition nl : string := String (ascii_of_nat 10) EmptyString.

(** [sep.join(parts)] *)
Fixpoint py_join (sep : string) (parts : list string) : string :=
  match parts with
  | [] => EmptyString
  | [x] => x
  | x :: rest => x ++ sep ++ py_join sep rest
  end.

Section WorkDirFiles.

(** [SUPPORTED_EXTENSIONS] as a lookup; [None] is the [KeyError]. *)
Variable supported : string -> option ext_info.

(** [f"const {{ {ext_info['name']} }} = require('{ext_info['module']}');"] *)
Definition ext_require (i : ext_info) : string :=
  "const { " ++ ext_name i ++ " } = require('" ++ ext_module i ++ "');".

(** [f"    {ext_name}: {ext_info['name']}"] *)
Definition ext_config (name : string) (i : ext_info) : string :=
  "    " ++ name ++ ": " ++ ext_name i.

(** The [for ext_name in self.config.extensions:] loop: the two lists it
    appends to, or the first name that is not supported. *)
Fixpoint collect_extensions (names : list string)
  : (list string * list string) + string :=
  match names with
  | [] => inl ([], [])
  | name :: rest =>
      match supported name with
      | None => inr name
      | Some i =>
          match collect_extensions rest with
          | inl (requires, configs) =>
              inl (ext_require i :: requires, ext_config name i :: configs)
          | inr missing => inr missing
          end
      end
  end.

(** [f"{{\n{ext_configs_str}\n}}" if ext_configs else "{}"] *)
Definition extensions_obj_str (ext_configs : list string) : string :=
  match ext_configs with
  | [] => "{}"
  | _ => "{" ++ nl ++ py_join ("," ++ nl) ext_configs ++ nl ++ "}"
  end.

Definition js_head : string :=
"const { PGlite } = require('@electric-sql/pglite');
const { PGLiteSocketServer } = require('@electric-sql/pglite-socket');
const fs = require('fs');
const path = require('path');
const { unlink } = require('fs/promises');
const { existsSync } = require('fs');
".

Definition js_socket_open : string :=
"

const SOCKET_PATH = '".

Definition js_body : string :=
"';

async function cleanup() {
    if (existsSync(SOCKET_PATH)) {
        try {
            await unlink(SOCKET_PATH);
            console.log(`Removed old socket at ${SOCKET_PATH}`);
        } catch (err) {
            // Ignore errors during cleanup
        }
    }
}

async function startServer() {
    try {
        // Create a PGlite instance with extensions
        const db = new PGlite({
            extensions: ".

Definition js_tail : string :=
"
        });

        // Clean up any existing socket
        await cleanup();

        // Create and start a socket server
        const server = new PGLiteSocketServer({
            db,
            path: SOCKET_PATH,
        });
        await server.start();
        console.log(`Server started on socket ${SOCKET_PATH}`);

        // Handle graceful shutdown
        process.on('SIGINT', async () => {
            console.log('Received SIGINT, shutting down gracefully...');
            try {
                await server.stop();
                await db.close();
                console.log('Server stopped and database closed');
            } catch (err) {
                console.error('Error during shutdown:', err);
            }
            process.exit(0);
        });

        process.on('SIGTERM', async () => {
            console.log('Received SIGTERM, shutting down gracefully...');
            try {
                await server.stop();
                await db.close();
                console.log('Server stopped and database closed');
            } catch (err) {
                console.error('Error during shutdown:', err);
            }
            process.exit(0);
        });

        // Keep the process alive
        process.on('exit', () => {
            console.log('Process exiting...');
        });

    } catch (err) {
        console.error('Failed to start PGlite server:', err);
        process.exit(1);
    }
}

startServer();".

(** The f-string [js_content]. *)
Definition js_content (socket : string) (ext_requires ext_configs : list string)
  : string :=
  js_head ++ py_join nl ext_requires ++ js_socket_open ++ socket ++ js_body
  ++ extensions_obj_str ext_configs ++ js_tail.

(** The part of [_setup_work_dir] below the creation of the directory
    [work_dir]: [has_package] and [has_launcher] are what [exists()]
    answers for work_dir/package.json and work_dir/pglite_manager.js,
    [extensions] is [self.config.extensions], [version] is
    [__version__]. *)
Definition workspace_files (socket version : string)
  (extensions : option (list string)) (work_dir : string)
  (has_package has_launcher : bool) : setup_result :=
  let package :=
    if has_package then []
    else [WritePackageJson (work_dir ++ "/package.json") version] in
  if has_launcher then SetupDone package
  else
    match collect_extensions
            (match extensions with Some names => names | None => [] end) with
    | inr missing => SetupKeyError missing package
    | inl (requires, configs) =>
        SetupDone
          (package ++
           [WriteLauncher (work_dir ++ "/" ++ launcher_name)
                          (js_content socket requires configs)])%list
    end.

End WorkDirFiles.

(** ** Reading a history *)

(** The events between the states [s] and [s'] of one run, newest first. *)
Definition since (s s' : sys) : list event :=
  firstn (length (trace s') - length (trace s)) (trace s').

Definition is_connect (e : event) : bool :=
  match e with EvConnect _ => true | _ => false end.

(** The events of the helper calls: everything but a handshake, a spawn,
    a change of directory and a database probe. *)
Definition routine (e : event) : bool :=
  match e with
  | EvConnect _ | EvSpawn _ _ _ _ | EvChdir _ | EvProbe _ _ => false
  | _ => true
  end.

Definition is_log (e : event) : bool :=
  match e with EvLog _ _ => true | _ => false end.

(** What was done between [s] and [s'], oldest first, log records left out. *)
Definition actions (s s' : sys) : list event :=
  filter (fun e => negb (is_log e)) (rev (since s s')).


(** ** Concrete worlds *)

Fixpoint before_last_slash (p : string) : option string :=
  match p with
  | EmptyString => None
  | String c rest =>
      match before_last_slash rest with
      | Some d => Some (String c d)
      | None => if Ascii.eqb c "/" then Some EmptyString else None
      end
  end.

(** [str(Path(p).parent)] for a normalised POSIX path. *)
Definition posix_parent (p : string) : string :=
  match before_last_slash p with
  | Some EmptyString => "/"
  | Some d => d
  | None => "."
  end.

Definition has_child (s : sys) : bool :=
  match process s with Some _ => true | None => false end.

(** A machine on which everything the manager does to it succeeds at
    once: [mkdtemp] yields /tmp/py-pglite-x7, [Popen] yields pid 4242.
    The arguments say what the child does: whether its socket file is
    there, whether it accepts a connection, whether it has exited, what
    it printed, when it is reaped once waited for, and what the database
    probe answers. *)
Definition machine (table : list proc_info) (bound accepts dead : sys -> bool)
  (printed : string) (reaped : sys -> option Z) (db : sys -> bool + exn)
  : environ :=
  mkEnv posix_parent
        (fun _ => table) (fun _ _ => None) (fun _ _ => None)
        (fun s _ => inl (bound s)) (fun _ _ => None)
        (fun _ _ => inl "/tmp/py-pglite-x7") (fun _ _ => inl EmptyString) (fun _ _ => None)
        (fun _ => inl 4242)
        (fun s _ => dead s) (fun _ _ => (inl printed, 0)) (fun s _ => (accepts s, 0))
        (fun _ _ => None) (fun s _ => reaped s) (fun s _ => db s)
        (fun _ _ => None) (fun _ => None).

(** The same world with another answer to one kind of call. *)
Definition with_path_exists (f : sys -> string -> bool + exn) (w : environ)
  : environ :=
  mkEnv (path_parent w) (process_iter w) (ps_kill w) (ps_wait w)
        f (unlink w) (provision w) (npm_install w) (find_pglite_modules w)
        (popen w) (exited w) (child_output w) (connect w) (send_signal w)
        (exits_in w) (check_connection w) (chdir_error w) (getcwd_error w).

Definition with_npm_install (f : sys -> string -> string + exn) (w : environ)
  : environ :=
  mkEnv (path_parent w) (process_iter w) (ps_kill w) (ps_wait w)
        (path_exists w) (unlink w) (provision w) f (find_pglite_modules w)
        (popen w) (exited w) (child_output w) (connect w) (send_signal w)
        (exits_in w) (check_connection w) (chdir_error w) (getcwd_error w).

Definition with_child_output (f : sys -> pid -> (string + exn) * Z) (w : environ)
  : environ :=
  mkEnv (path_parent w) (process_iter w) (ps_kill w) (ps_wait w)
        (path_exists w) (unlink w) (provision w) (npm_install w)
        (find_pglite_modules w)
        (popen w) (exited w) f (connect w) (send_signal w)
        (exits_in w) (check_connection w) (chdir_error w) (getcwd_error w).

Definition with_chdir_error (f : sys -> string -> option exn) (w : environ)
  : environ :=
  mkEnv (path_parent w) (process_iter w) (ps_kill w) (ps_wait w)
        (path_exists w) (unlink w) (provision w) (npm_install w)
        (find_pglite_modules w)
        (popen w) (exited w) (child_output w) (connect w) (send_signal w)
        (exits_in w) (check_connection w) f (getcwd_error w).

Definition config_of (socket : string) (seconds : Z) : PGliteConfig :=
  mkConfig socket seconds true None None false true.

Definition cfg2 : PGliteConfig := config_of "/tmp/py-pglite/.s.PGSQL.5432" 2.

Definition never (_ : sys) : bool := false.
Definition always (_ : sys) : bool := true.
Definition at_once (_ : sys) : option Z := Some 0.
Definition not_ready (_ : sys) : bool + exn := inl false.

(** The socket file is there from the spawn on, but the engine accepts
    connections only half a second later. *)
Definition slow_bind : environ :=
  machine [] has_child (fun s => 500 <=? now s) never EmptyString at_once not_ready.

(** The launcher exits at once (node cannot load the package). *)
Definition broken_launcher : environ :=
  machine [] never never always "Error: Cannot find module" at_once not_ready.

(** A healthy launcher whose process crashes five seconds in. *)
Definition crash_later : environ :=
  machine [] has_child always (fun s => 5000 <=? now s) EmptyString at_once not_ready.

(** A launcher that never binds its socket, ignores SIGTERM and is stuck
    in the kernel, so that even SIGKILL does not reap it. *)
Definition stuck_child : environ :=
  machine [] never never never EmptyString (fun _ => None) not_ready.

(** Two launchers that print the same line and exit, one at once, one
    after a second. *)
Definition dies_at (ms : Z) : environ :=
  machine [] never never (fun s => ms <=? now s) "boom" at_once not_ready.


Definition db_down : environ :=
  machine [] has_child always never EmptyString at_once not_ready.

(** Two supervisors with sockets in /tmp/py-pglite and /tmp/py-pglite-b;
    the second one's child runs in its mkdtemp work directory. *)
Definition cfg_a : PGliteConfig := config_of "/tmp/py-pglite/.s.PGSQL.5432" 30.
Definition cfg_b : PGliteConfig := config_of "/tmp/py-pglite-b/.s.PGSQL.5432" 30.

Definition child_b : proc_info :=
  mkProc 777 (Some ["node"; "pglite_manager.js"]) (Some "/tmp/py-pglite-x7").

Definition child_far : proc_info :=
  mkProc 778 (Some ["node"; "pglite_manager.js"]) (Some "/srv/other/work").

Definition shared_tmp : environ :=
  machine [child_b; child_far] never never never EmptyString at_once not_ready.

Definition home : sys := fresh "/home/user/project".

(** The launcher exits at once, and meanwhile the directory [start] was
    called in has been removed. *)
Definition vanished_directory : environ :=
  with_chdir_error
    (fun _ d =>
       if String.eqb d "/home/user/project"
       then Some (OSError "[Errno 2] No such file or directory: '/home/user/project'")
       else None)
    broken_launcher.

(** A healthy launcher; from three seconds on the directory of the
    socket cannot be searched, and [exists()] lets the [PermissionError]
    of [stat] through. *)
Definition locked_socket_dir : environ :=
  with_path_exists
    (fun s _ =>
       if 3000 <=? now s
       then inr (OSError "[Errno 13] Permission denied: '/tmp/py-pglite/.s.PGSQL.5432'")
       else inl (has_child s))
    db_down.

(** The launcher exits at once, leaving bytes on its pipe that are not
    text. *)
Definition binary_output : environ :=
  with_child_output
    (fun _ _ =>
       (inr (UnicodeDecodeError
               "'utf-8' codec can't decode byte 0xff in position 0: invalid start byte"),
        0))
    broken_launcher.

(** * Vocabulary of the properties *)

(** ** Relating the states before and after a call

    [respects R m]: whatever [m] does and however it ends, the state it
    ends in is related by [R] to the state it started in.  A [frame] is a
    relation that survives bookkeeping: it is a preorder, the clock may
    move, and events satisfying [P] may be recorded. *)

Definition respects (R : sys -> sys -> Prop) {A} (m : M A) : Prop :=
  forall s, R s (final (m s)).

Record frame (P : event -> Prop) (R : sys -> sys -> Prop) : Prop := mkFrame {
  frame_refl : forall s, R s s;
  frame_trans : forall a b c, R a b -> R b c -> R a c;
  frame_record : forall e s, P e -> R s (record e s);
  frame_advance : forall d s, R s (advance d s)
}.

(** Between [s] and [s'] only events satisfying [P] were recorded. *)
Definition adds (P : event -> Prop) (s s' : sys) : Prop :=
  exists new, trace s' = (new ++ trace s)%list /\ Forall P new.

Definition same_cwd (s s' : sys) : Prop := cwd s' = cwd s.

Definition same_original (s s' : sys) : Prop := _original_cwd s' = _original_cwd s.

Definition same_process (s s' : sys) : Prop := process s' = process s.

Definition unrestricted (_ : event) : Prop := True.

Definition no_spawn (e : event) : Prop :=
  match e with EvSpawn _ _ _ _ => False | _ => True end.

Definition spawned_in (d : string) (e : event) : Prop :=
  match e with EvSpawn _ d' _ _ => d' = d | _ => True end.

(** As long as the process is in directory [d]: it stays there, the
    manager's [work_dir] is kept, and whatever is spawned is spawned
    in [d]. *)
Definition stays_in (d : string) (s s' : sys) : Prop :=
  cwd s = d ->
  cwd s' = d /\ work_dir s' = work_dir s /\ adds (spawned_in d) s s'.

Definition spawns_in_work_dir (s s' : sys) : Prop :=
  adds no_spawn s s' \/
  exists wd, work_dir s' = Some wd /\ adds (spawned_in wd) s s'.

Definition no_connect (e : event) : Prop := is_connect e = false.

(** Between [s] and [s'] at most [k] handshakes were attempted. *)
Definition probes_at_most (k : nat) (s s' : sys) : Prop :=
  exists new,
    trace s' = (new ++ trace s)%list /\ (length (filter is_connect new) <= k)%nat.

(** The test applied to a process that names the launcher. *)
Definition contained_either_way (dir c : string) : bool :=
  str_in dir c || str_in c dir.

Definition not_killing (victim : pid) (e : event) : Prop := e <> EvPsKill victim.

(** The last thing the shutdown sequence does is write one of its four
    log records; three of them report a failure. *)
Definition shutdown_report (e : event) : Prop :=
  e = EvLog INFO "PGlite server stopped gracefully" \/
  e = EvLog INFO "PGlite server stopped forcefully" \/
  e = EvLog ERROR "Failed to kill PGlite process!" \/
  exists x, e = EvLog WARNING ("Error stopping PGlite: " ++ exn_message x).

Definition quiet_actions (new : list event) : list event :=
  filter (fun e => negb (is_log e)) (rev new).

(** ** How a call can end *)

Inductive shape : Type := Ret | Exc | Hang | Cut.

Definition shape_of {A} (o : outcome A) : shape :=
  match o with
  | Returned _ _ => Ret
  | Raised _ _ => Exc
  | Hangs _ => Hang
  | Unfinished _ => Cut
  end.

(** [within C m]: from every state, [m] ends in one of the ways [C] allows. *)
Definition within (C : shape -> bool) {A} (m : M A) : Prop :=
  forall s, C (shape_of (m s)) = true.

(** It comes back to its caller. *)
Definition back (sh : shape) : bool :=
  match sh with Ret | Exc => true | _ => false end.

(** It comes back without an exception. *)
Definition quiet (sh : shape) : bool :=
  match sh with Ret => true | _ => false end.

(** It is not cut short by the iteration bound of the model. *)
Definition uncut (sh : shape) : bool :=
  match sh with Cut => false | _ => true end.

(** What [is_running] answers in state [s]: there is a handle and the
    operating system, asked now, says the process has not exited. *)
Definition alive (env : environ) (s : sys) : bool :=
  match process s with
  | Some p => negb (exited env s p)
  | None => false
  end.

(** One way of writing the three strings that meets [ConfigFormat]. *)
Definition host_format : ConfigFormat.
Proof.
  refine (mkFormat
            (fun c => "postgresql+psycopg://postgres:postgres@/postgres?host="
                      ++ socket_path c)
            (fun c => "host=" ++ socket_path c ++ " dbname=postgres user=postgres")
            (fun c => "postgresql://postgres:postgres@/postgres?host="
                      ++ socket_path c)
            _)%string.
  assert (front : forall a b : string, prefix a (a ++ b) = true).
  { induction a as [|x a IH]; intro b; simpl; [now destruct b|].
    destruct (ascii_dec x x); [apply IH | congruence]. }
  assert (whole : forall a : string, prefix a a = true).
  { induction a as [|x a IH]; simpl; [reflexivity|].
    destruct (ascii_dec x x); [exact IH | congruence]. }
  assert (here : forall a h : string, prefix a h = true -> str_in a h = true).
  { intros a h H. destruct h; cbn [str_in]; rewrite H; reflexivity. }
  assert (middle : forall pre a post : string, str_in a (pre ++ a ++ post) = true).
  { induction pre as [|x pre IH]; intros a post; simpl; [apply here, front|].
    rewrite IH. apply orb_true_r. }
  assert (last : forall pre a : string, str_in a (pre ++ a) = true).
  { induction pre as [|x pre IH]; intro a; simpl; [apply here, whole|].
    rewrite IH. apply orb_true_r. }
  intro c. repeat split; first [apply middle | apply last].
Defined.

(** ** The anatomy of [start] *)

Definition is_spawn (e : event) : bool :=
  match e with EvSpawn _ _ _ _ => true | _ => false end.

(** Neither a spawn nor a handshake. *)
Definition preparing (e : event) : Prop := no_spawn e /\ no_connect e.

(** The manager's fields and the working directory are as they were. *)
Definition untouched (s s' : sys) : Prop :=
  process s' = process s /\ work_dir s' = work_dir s /\
  _original_cwd s' = _original_cwd s /\ cwd s' = cwd s.

(** Nothing is touched, and nothing is spawned or probed. *)
Definition prepares (s s' : sys) : Prop := untouched s s' /\ adds preparing s s'.

(** What [start] does once the socket file has been cleaned up. *)
Definition provision_and_launch (cfg : PGliteConfig) (env : environ) : M unit :=
  (wd <- _setup_work_dir cfg env ;;
   modify (set_work_dir (Some wd)) ;;
   here <- getcwd env ;;
   modify (set_original_cwd (Some here)) ;;
   chdir env wd ;;
   try_finally (launch cfg env wd) (restore_cwd env))%py.

(** The first pass of the readiness loop, made in state [at_poll], that
    finds the child alive and the socket file in place, and whose
    handshake succeeds: the loop ends in [after]. *)
Definition ready_at (cfg : PGliteConfig) (env : environ) (p : pid) (t0 : Z)
  (at_poll after : sys) : Prop :=
  now at_poll - t0 < timeout_ms cfg /\
  exited env at_poll p = false /\
  path_exists env at_poll (socket_path cfg) = inl true /\
  let probing :=
    record (EvLog INFO "PGlite socket created, server should be ready...") at_poll in
  fst (connect env probing (socket_path cfg)) = true /\
  after =
    record (EvLog INFO "PGlite server started successfully")
      (advance (Z.min 1000 (snd (connect env probing (socket_path cfg))))
         (record (EvConnect (socket_path cfg)) probing)).

(** Only sleeping. *)
Definition polling (e : event) : Prop := e = EvSleep 500.

(** One pass of the readiness loop, made in state [s], that gets to
    [time.sleep(0.5)] and from there back to the [while] condition: the
    time is not up, the child has not exited, [exists()] answers, and
    the handshake, if it is tried, fails.  The result is the value of
    [ready_logged] and the state at the next test of the condition. *)
Definition goes_round (cfg : PGliteConfig) (env : environ) (p : pid) (t0 : Z)
  (ready_logged : bool) (s : sys) : option (bool * sys) :=
  if now s - t0 <? timeout_ms cfg then
    if exited env s p then None
    else
      match path_exists env s (socket_path cfg) with
      | inr _ => None
      | inl present =>
          if present && negb ready_logged then
            match handshake env (socket_path cfg)
                    (record (EvLog INFO
                               "PGlite socket created, server should be ready...") s)
            with
            | Returned false s1 => Some (true, advance 500 (record (EvSleep 500) s1))
            | _ => None
            end
          else Some (ready_logged, advance 500 (record (EvSleep 500) s))
      end
  else None.

(** [k] such passes in a row, from the state [s]. *)
Fixpoint after_passes (cfg : PGliteConfig) (env : environ) (k : nat) (p : pid)
  (t0 : Z) (ready_logged : bool) (s : sys) : option (bool * sys) :=
  match k with
  | O => Some (ready_logged, s)
  | S k' =>
      match goes_round cfg env p t0 ready_logged s with
      | Some (ready_logged', s') => after_passes cfg env k' p t0 ready_logged' s'
      | None => None
      end
  end.

(** The child is kept: nothing is touched and nothing more is spawned. *)
Definition keeps_child (s s' : sys) : Prop := untouched s s' /\ adds no_spawn s s'.

(** A healthy launcher, started where a socket file was left behind. *)
Definition stale_socket : environ :=
  machine [] always always never EmptyString at_once not_ready.

(** The state in which [stop] waits for the child [p]: the debug record
    and the SIGTERM are in the history. *)
Definition asked_to_stop (p : pid) (s : sys) : sys :=
  record (EvTerminate p)
    (record (EvLog DEBUG "Sending SIGTERM to PGlite process...") s).

(** The child [p] is not reaped within [bound] milliseconds of [s]. *)
Definition outlives (env : environ) (p : pid) (bound : Z) (s : sys) : bool :=
  match exits_in env s p with
  | Some d => bound <? d
  | None => true
  end.

(** Log records and the removal of one path. *)
Definition tidies (path : string) (e : event) : Prop :=
  is_log e = true \/ e = EvUnlink path.

(** ** Conflict reclamation *)

(** The two tests of the scan: the command line names the launcher and
    the working directory passes the containment test. *)
Definition conflicts (dir : string) (q : proc_info) : bool :=
  names_launcher q &&
  match pi_cwd q with
  | Some c => contained_either_way dir c
  | None => false
  end.

(** What a scan of [table] may record: log records, and a kill or a wait
    for a process of the table that passes both tests. *)
Definition reclaims (table : list proc_info) (dir : string) (e : event) : Prop :=
  match e with
  | EvLog _ _ => True
  | EvPsKill victim | EvPsWait victim _ =>
      exists q, In q table /\ pi_pid q = victim /\ conflicts dir q = true
  | _ => False
  end.

(** The psutil errors the scan steps over. *)
Definition tolerated (r : option exn) : bool :=
  match r with
  | None | Some NoSuchProcess | Some AccessDenied => true
  | Some _ => false
  end.

(** A launcher process of another user: psutil reports no working
    directory for it. *)
Definition foreign_launcher : proc_info :=
  mkProc 900 (Some ["node"; "pglite_manager.js"]) None.

Definition mixed_table : environ :=
  machine [child_far; foreign_launcher; child_b] never never never EmptyString
    at_once not_ready.

(** ** The database probe *)

(** [check_connection(dsn)] answers [True] in state [s]; [False] and an
    exception both count as a failed probe. *)
Definition probe_succeeds (env : environ) (dsn : string) (s : sys) : bool :=
  match check_connection env s dsn with
  | inl true => true
  | _ => false
  end.

(** ** The timeout branch *)

(** What the readiness loop records while it waits: sleeps, log records
    and handshakes with the socket at [path]. *)
Definition waiting (path : string) (e : event) : Prop :=
  e = EvSleep 500 \/ is_log e = true \/ e = EvConnect path.

(** What the timeout branch adds to the history [past] when the child
    [p] goes on SIGTERM: the warning, the signal and the wait. *)
Definition given_up (p : pid) (past : list event) : list event :=
  EvWait p (Some 5000) :: EvTerminate p ::
  EvLog WARNING "PGlite server startup timeout, terminating..." :: past.

(** Neither a sleep, nor a handshake, nor a read of the child's output. *)
Definition idle (e : event) : Prop :=
  match e with
  | EvSleep _ | EvConnect _ | EvCommunicate _ _ => False
  | _ => True
  end.

(** No time at all for the child to start. *)
Definition cfg0 : PGliteConfig := config_of "/tmp/py-pglite/.s.PGSQL.5432" 0.

(** A launcher that never binds its socket but goes at once on SIGTERM. *)
Definition never_binds : environ :=
  machine [] never never never EmptyString at_once not_ready.

(** ** The work directory files *)

(** The files written, whether the setup got to its end or not. *)
Definition written (r : setup_result) : list file_write :=
  match r with
  | SetupDone w => w
  | SetupKeyError _ w => w
  end.

(** The path a write goes to. *)
Definition target (w : file_write) : string :=
  match w with
  | WritePackageJson p _ => p
  | WriteLauncher p _ => p
  end.

(** The write of package.json, when the file is missing. *)
Definition package_write (version work_dir : string) (has_package : bool)
  : list file_write :=
  if has_package then []
  else [WritePackageJson (work_dir ++ "/package.json") version].

(** A table of two supported extensions, for the examples. *)
Definition two_extensions (name : string) : option ext_info :=
  if String.eqb name "pgvector"
  then Some (mkExt "@electric-sql/pglite/vector" "vector")
  else if String.eqb name "fuzzystrmatch"
  then Some (mkExt "@electric-sql/pglite/contrib/fuzzystrmatch" "fuzzystrmatch")
  else None.

(** ** Dependencies *)

(** A configuration that installs the npm dependencies when the
    node_modules directory is missing. *)
Definition cfg_install : PGliteConfig :=
  mkConfig "/tmp/py-pglite/.s.PGSQL.5432" 2 true None None true true.

(** A machine without network: [npm install] exits with an error. *)
Definition npm_offline : environ :=
  with_npm_install (fun _ _ => inr CalledProcessError) never_binds.

(** * Properties *)

(** ** Frame reasoning *)

Section Respects.

Variable P : event -> Prop.
Variable R : sys -> sys -> Prop.
Hypothesis F : frame P R.

Lemma respects_ret {A} (a : A) : respects R (ret a).
Proof. intro s. apply (frame_refl _ _ F). Qed.

Lemma respects_raise {A} (e : exn) : respects R (raise e : M A).
Proof. intro s. apply (frame_refl _ _ F). Qed.

Lemma respects_gets {A} (f : sys -> A) : respects R (gets f).
Proof. intro s. apply (frame_refl _ _ F). Qed.

Lemma respects_hangs {A} : respects R (fun s => Hangs s : outcome A).
Proof. intro s. apply (frame_refl _ _ F). Qed.

Lemma respects_unfinished {A} : respects R (fun s => Unfinished s : outcome A).
Proof. intro s. apply (frame_refl _ _ F). Qed.

Lemma respects_modify (f : sys -> sys) :
  (forall s, R s (f s)) -> respects R (modify f).
Proof. intros H s. apply H. Qed.

Lemma respects_bind {A B} (m : M A) (k : A -> M B) :
  respects R m -> (forall a, respects R (k a)) -> respects R (bind m k).
Proof.
  intros Hm Hk s. unfold bind. specialize (Hm s).
  destruct (m s) as [a s'|e s'|s'|s']; simpl in *; auto.
  apply (frame_trans _ _ F _ s'); auto. apply Hk.
Qed.

Lemma respects_try_except {A} (m : M A) (h : exn -> option (M A)) :
  respects R m -> (forall e k, h e = Some k -> respects R k) ->
  respects R (try_except m h).
Proof.
  intros Hm Hh s. unfold try_except. specialize (Hm s).
  destruct (m s) as [a s'|e s'|s'|s']; simpl in *; auto.
  destruct (h e) as [k|] eqn:E; simpl; auto.
  apply (frame_trans _ _ F _ s'); auto. apply (Hh _ _ E).
Qed.

Lemma respects_try_finally {A} (m : M A) (fin : M unit) :
  respects R m -> respects R fin -> respects R (try_finally m fin).
Proof.
  intros Hm Hf s. unfold try_finally. specialize (Hm s).
  destruct (m s) as [a s'|e s'|s'|s']; simpl in *; auto;
    apply (frame_trans _ _ F _ s'); auto;
    apply (respects_bind fin); auto; intros [];
    [apply respects_ret | apply respects_raise].
Qed.

Lemma respects_emit (e : event) : P e -> respects R (emit e).
Proof. intros H s. apply (frame_record _ _ F), H. Qed.

Lemma respects_advance (d : Z) : respects R (modify (advance d)).
Proof. intro s. apply (frame_advance _ _ F). Qed.

Lemma respects_raise_if (r : option exn) : respects R (raise_if r).
Proof. destruct r; [apply respects_raise | apply respects_ret]. Qed.

Lemma respects_syscall {A} (answer : sys -> A) (e : event) :
  P e -> respects R (syscall answer e).
Proof.
  intro H. unfold syscall.
  apply respects_bind; [apply respects_gets | intro].
  apply respects_bind; [apply respects_emit, H | intro; apply respects_ret].
Qed.

Lemma respects_sleep (ms : Z) : P (EvSleep ms) -> respects R (sleep ms).
Proof.
  intro H. unfold sleep. destruct (sleep_error ms); [apply respects_raise|].
  apply respects_bind; [apply respects_emit, H | intro; apply respects_advance].
Qed.

Lemma respects_exists (env : environ) (path : string) :
  respects R (exists_ env path).
Proof.
  unfold exists_. apply respects_bind; [apply respects_gets | intros [b|e]];
    [apply respects_ret | apply respects_raise].
Qed.

Lemma respects_getcwd (env : environ) : respects R (getcwd env).
Proof.
  unfold getcwd. apply respects_bind; [apply respects_gets | intros [e|]];
    [apply respects_raise | apply respects_gets].
Qed.

Lemma respects_for_each {A} (body : A -> M unit) (l : list A) :
  (forall x, In x l -> respects R (body x)) -> respects R (for_each body l).
Proof.
  induction l as [|x l IH]; intro H; simpl; [apply respects_ret|].
  apply respects_bind; [apply H; now left | intro; apply IH].
  intros y Hy. apply H. now right.
Qed.

End Respects.

(** One step through a monadic term; what is left are the side
    conditions on the events it records. *)
Ltac handler_cases :=
  let e := fresh "e" in
  let k := fresh "k" in
  let E := fresh "E" in
  intros e k E; destruct e; simpl in E; try discriminate E;
  injection E as <-.

Ltac walk F :=
  repeat first
    [ apply (respects_ret _ _ F)
    | apply (respects_raise _ _ F)
    | apply (respects_gets _ _ F)
    | apply (respects_hangs _ _ F)
    | apply (respects_unfinished _ _ F)
    | apply (respects_advance _ _ F)
    | apply (respects_raise_if _ _ F)
    | apply (respects_bind _ _ F); [ | intro ]
    | apply (respects_try_except _ _ F); [ | handler_cases ]
    | apply (respects_try_finally _ _ F)
    | apply (respects_syscall _ _ F)
    | apply (respects_sleep _ _ F)
    | apply (respects_exists _ _ F)
    | apply (respects_getcwd _ _ F)
    | apply (respects_emit _ _ F)
    | match goal with
      | |- respects _ (if ?b then _ else _) => destruct b
      | |- respects _ (match ?x with _ => _ end) => destruct x
      end ].

(** ** Endings of the helper calls *)

Section Within.

Variable C : shape -> bool.

Lemma within_ret {A} (a : A) : C Ret = true -> within C (ret a).
Proof. intros H s. exact H. Qed.

Lemma within_raise {A} (e : exn) : C Exc = true -> within C (raise e : M A).
Proof. intros H s. exact H. Qed.

Lemma within_gets {A} (f : sys -> A) : C Ret = true -> within C (gets f).
Proof. intros H s. exact H. Qed.

Lemma within_modify (f : sys -> sys) : C Ret = true -> within C (modify f).
Proof. intros H s. exact H. Qed.

Lemma within_bind {A B} (m : M A) (k : A -> M B) :
  within C m -> (forall a, within C (k a)) -> within C (bind m k).
Proof.
  intros Hm Hk s. unfold bind. specialize (Hm s).
  destruct (m s); simpl in *; auto. apply Hk.
Qed.

(** The handler may turn an exception into something else; every other
    ending of the body is kept. *)
Lemma within_try_except {A} (C0 : shape -> bool) (m : M A) (h : exn -> option (M A)) :
  within C0 m ->
  (forall sh, C0 sh = true -> sh <> Exc -> C sh = true) ->
  (forall e, match h e with Some k => within C k | None => C Exc = true end) ->
  within C (try_except m h).
Proof.
  intros Hm Hsub Hh s. unfold try_except. specialize (Hm s).
  destruct (m s) as [a s'|e s'|s'|s']; simpl in *;
    try (apply Hsub; [exact Hm | discriminate]).
  specialize (Hh e). destruct (h e); simpl; auto.
Qed.

Lemma within_try_finally {A} (m : M A) (fin : M unit) :
  within C m -> within C fin -> within C (try_finally m fin).
Proof.
  intros Hm Hf s. unfold try_finally, bind, ret, raise. specialize (Hm s).
  destruct (m s) as [a s'|e s'|s'|s']; simpl in *; auto;
    specialize (Hf s'); destruct (fin s'); simpl in *; auto.
Qed.

Hypothesis C_ret : C Ret = true.
Hypothesis C_exc : C Exc = true.

Lemma within_emit (e : event) : within C (emit e).
Proof. intro s. exact C_ret. Qed.

Lemma within_raise_if (r : option exn) : within C (raise_if r).
Proof. destruct r; intro s; simpl; auto. Qed.

Lemma within_syscall {A} (answer : sys -> A) (e : event) : within C (syscall answer e).
Proof. intro s. exact C_ret. Qed.

Lemma within_sleep (ms : Z) : within C (sleep ms).
Proof. intro s. unfold sleep. destruct (sleep_error ms); simpl; auto. Qed.

Lemma within_for_each {A} (body : A -> M unit) (l : list A) :
  (forall x, within C (body x)) -> within C (for_each body l).
Proof.
  intro H. induction l as [|x l IH]; simpl; [now apply within_ret|].
  apply within_bind; auto.
Qed.

Variable env : environ.

Lemma within_chdir (d : string) : within C (chdir env d).
Proof.
  intro s. unfold chdir, bind, gets. destruct (chdir_error env s d); simpl; auto.
Qed.

Lemma within_exists (path : string) : within C (exists_ env path).
Proof.
  intro s. unfold exists_, bind, gets. destruct (path_exists env s path); simpl; auto.
Qed.

Lemma within_getcwd : within C (getcwd env).
Proof.
  intro s. unfold getcwd, bind, gets. destruct (getcwd_error env s); simpl; auto.
Qed.

Lemma within_signal (p : pid) : within C (terminate env p) /\ within C (kill env p).
Proof.
  split; intro s; unfold terminate, kill, syscall, bind, gets, emit, modify, ret;
    simpl; destruct (send_signal env s p); simpl; auto.
Qed.

(** A wait with a bound always comes back. *)
Lemma within_wait_bounded (p : pid) (t : Z) : within C (wait env p (Some t)).
Proof.
  intro s. unfold wait, syscall, bind, gets, emit, modify, ret, raise. simpl.
  destruct (exits_in env s p) as [d|]; simpl; auto.
  destruct (d <=? t); simpl; auto.
Qed.

(** A wait without one comes back only if the child is reaped. *)
Lemma within_wait_unbounded (p : pid) :
  C Hang = true \/ (forall s, exits_in env s p <> None) ->
  within C (wait env p None).
Proof.
  intros H s. unfold wait, syscall, bind, gets, emit, modify, ret. simpl.
  destruct (exits_in env s p) as [d|] eqn:E; simpl; auto.
  destruct H as [H|H]; [exact H | now destruct (H s)].
Qed.

Lemma within_communicate (p : pid) (t : Z) : within C (communicate env p t).
Proof.
  intro s. unfold communicate, syscall, bind, gets, emit, modify, ret, raise. simpl.
  destruct (snd (child_output env s p) <=? t); simpl; auto.
  destruct (fst (child_output env s p)); simpl; auto.
Qed.

Lemma within_handshake (path : string) : within C (handshake env path).
Proof. intro s. exact C_ret. Qed.

End Within.

Ltac ends :=
  repeat first
    [ assumption
    | reflexivity
    | apply within_ret
    | apply within_raise
    | apply within_gets
    | apply within_modify
    | apply within_emit
    | apply within_raise_if
    | apply within_syscall
    | apply within_sleep
    | apply within_chdir
    | apply within_exists
    | apply within_getcwd
    | apply within_wait_bounded
    | apply within_communicate
    | apply within_handshake
    | apply within_signal
    | apply within_bind; [ | intro ]
    | apply within_try_finally
    | match goal with
      | |- within _ (if ?b then _ else _) => destruct b
      | |- within _ (match ?x with _ => _ end) => destruct x
      end ].

Section Endings.

Variable cfg : PGliteConfig.
Variable env : environ.

Lemma back_or_quiet (sh : shape) : back sh = true -> sh <> Exc -> quiet sh = true.
Proof. destruct sh; simpl; congruence. Qed.

(** Socket hygiene always comes back; what it can raise is what
    [exists()] raises. *)
Lemma cleanup_socket_back : within back (_cleanup_socket cfg env).
Proof.
  unfold _cleanup_socket.
  apply within_bind; [ends | intros []; [|ends]].
  apply (within_try_except back back).
  - ends.
  - auto.
  - intro e. ends.
Qed.

Lemma reap_one_back (dir : string) (p : proc_info) :
  within back (reap_one env dir p).
Proof.
  unfold reap_one. destruct (names_launcher p); [|ends].
  apply (within_try_except back back).
  - unfold dir_conflict. ends.
  - auto.
  - intro e. destruct e; ends.
Qed.

(** Conflict reclamation never raises. *)
Lemma kill_existing_quiet : within quiet (_kill_existing_processes cfg env).
Proof.
  unfold _kill_existing_processes.
  apply (within_try_except quiet back).
  - apply within_bind; [ends | intro procs].
    apply within_for_each; [reflexivity|]. intro p. apply reap_one_back.
  - apply back_or_quiet.
  - intro e. ends.
Qed.

Section AnyEnding.

Variable C : shape -> bool.
Hypothesis C_ret : C Ret = true.
Hypothesis C_exc : C Exc = true.

Lemma quiet_within {A} (m : M A) : within quiet m -> within C m.
Proof.
  intros H s. specialize (H s). destruct (shape_of (m s)); simpl in H; congruence.
Qed.

Lemma back_within {A} (m : M A) : within back m -> within C m.
Proof.
  intros H s. specialize (H s). destruct (shape_of (m s)); simpl in H; congruence.
Qed.

Lemma exists_eq (path : string) (s : sys) :
  exists_ env path s =
  match path_exists env s path with
  | inl b => Returned b s
  | inr e => Raised e s
  end.
Proof.
  unfold exists_, bind, gets. destruct (path_exists env s path); reflexivity.
Qed.

Lemma sleep_500 : sleep 500 = (emit (EvSleep 500) ;; modify (advance 500)).
Proof. reflexivity. Qed.

Lemma setup_work_dir_within : within C (_setup_work_dir cfg env).
Proof. unfold _setup_work_dir. ends. Qed.

Lemma install_dependencies_within (wd : string) :
  within C (_install_dependencies cfg env wd).
Proof. unfold _install_dependencies. ends. Qed.

Lemma child_died_within (p : pid) : within C (child_died env p).
Proof.
  unfold child_died. apply within_bind; [|intro; ends].
  apply (within_try_except C C); [ends | auto |].
  intro e. destruct e; ends.
Qed.

(** The [else] branch of the loop ends with the last wait it makes. *)
Lemma startup_timed_out_within (p : pid) :
  within C (wait env p None) -> within C (startup_timed_out cfg env p).
Proof.
  intro Hw. unfold startup_timed_out.
  apply within_bind; [ends | intro gone].
  apply within_bind; [|intro; ends].
  destruct (negb gone); [|ends].
  apply within_bind; [ends | intro].
  apply within_bind; [ends | intro].
  apply (within_try_except C C); [ends | auto |].
  intro e. destruct e; ends.
Qed.

Lemma wait_startup_eq (n : nat) (p : pid) (t0 : Z) (rl : bool) :
  wait_startup cfg env n p t0 rl =
  (t <- gets now ;;
   if t - t0 <? timeout_ms cfg then
     match n with
     | O => fun s => Unfinished s
     | S n' =>
         gone <- gets (fun s => exited env s p) ;;
         if (gone : bool) then child_died env p
         else
           present <- exists_ env (socket_path cfg) ;;
           if present && negb rl then
             log INFO "PGlite socket created, server should be ready..." ;;
             ok <- handshake env (socket_path cfg) ;;
             if (ok : bool) then log INFO "PGlite server started successfully"
             else sleep 500 ;; wait_startup cfg env n' p t0 true
           else sleep 500 ;; wait_startup cfg env n' p t0 rl
     end
   else startup_timed_out cfg env p)%py.
Proof. destruct n; reflexivity. Qed.

(** The loop never needs more iterations than there are milliseconds
    left before the timeout: each one sleeps 500 of them. *)
Lemma wait_startup_within (p : pid) (t0 : Z) :
  C Cut = false ->
  within C (wait env p None) ->
  forall n rl s,
    (Z.to_nat (timeout_ms cfg - (now s - t0)) <= n)%nat ->
    C (shape_of (wait_startup cfg env n p t0 rl s)) = true.
Proof.
  intros Hcut Hw. induction n as [|n IH]; intros rl s Hn;
    rewrite wait_startup_eq; unfold bind at 1, gets at 1;
    destruct (now s - t0 <? timeout_ms cfg) eqn:Ht;
    try (apply startup_timed_out_within; exact Hw).
  - apply Z.ltb_lt in Ht. lia.
  - apply Z.ltb_lt in Ht.
    unfold bind at 1, gets at 1.
    destruct (exited env s p); [apply child_died_within|].
    unfold bind at 1. rewrite exists_eq.
    destruct (path_exists env s (socket_path cfg)) as [present|e]; [|exact C_exc].
    destruct (present && negb rl).
    + rewrite sleep_500.
      unfold log, emit, handshake, syscall, bind, gets, modify, ret. simpl.
      destruct (fst (connect env (record _ s) (socket_path cfg))); simpl; auto.
      apply IH. simpl. lia.
    + rewrite sleep_500. unfold emit, bind, modify. simpl. apply IH. simpl. lia.
Qed.

End AnyEnding.

End Endings.

Section StartEnds.

Variable cfg : PGliteConfig.
Variable env : environ.
Variable C : shape -> bool.
Hypothesis C_ret : C Ret = true.
Hypothesis C_exc : C Exc = true.
Hypothesis C_cut : C Cut = false.
Hypothesis C_wait : forall p, within C (wait env p None).

Lemma readiness_within (p : pid) :
  within C (start_time <- gets now ;;
            wait_startup cfg env (startup_bound cfg) p start_time false).
Proof.
  intro s. unfold bind at 1, gets at 1.
  apply wait_startup_within; auto.
  unfold startup_bound. lia.
Qed.

Lemma start_within : within C (start cfg env).
Proof.
  unfold start.
  apply within_bind; [ends | intros [p|]; [ends|]].
  apply within_bind; [apply quiet_within, kill_existing_quiet; auto | intro].
  apply within_bind; [apply back_within, cleanup_socket_back; auto | intro].
  apply within_bind; [apply setup_work_dir_within; auto | intro wd].
  do 4 (apply within_bind; [ends | intro]).
  apply within_try_finally; [|ends].
  apply within_bind; [apply install_dependencies_within; auto | intro].
  do 4 (apply within_bind; [ends | intro]).
  apply within_bind; [ends | intros [p|e]; [|ends]].
  do 3 (apply within_bind; [ends | intro]).
  apply readiness_within.
Qed.

End StartEnds.

(** The iteration bound of the model is never what ends [start]. *)
Lemma start_finishes (cfg : PGliteConfig) (env : environ) (s : sys) :
  forall s', start cfg env s <> Unfinished s'.
Proof.
  intros s' E.
  assert (H : within uncut (start cfg env)).
  { apply start_within; auto. intro p. apply within_wait_unbounded; auto. }
  specialize (H s). rewrite E in H. discriminate H.
Qed.

(** Where a killed child is always reaped, [start] returns or raises. *)
Lemma start_comes_back (cfg : PGliteConfig) (env : environ) :
  (forall s p, exits_in env s p <> None) ->
  forall s, exists s', exit_state (start cfg env s) = Some s'.
Proof.
  intros Hreap s.
  assert (H : within back (start cfg env)).
  { apply start_within; auto. intro p. apply within_wait_unbounded; auto. }
  specialize (H s). destruct (start cfg env s); simpl in *;
    try discriminate H; eauto.
Qed.

(** ** What the parts of [start] leave alone *)

Section Untouched.

Variable cfg : PGliteConfig.
Variable env : environ.
Variable P : event -> Prop.
Variable R : sys -> sys -> Prop.
Hypothesis F : frame P R.
(** [P] lets the events of the helper calls through. *)
Hypothesis silent : forall e, routine e = true -> P e.

Lemma respects_wait (p : pid) (t : option Z) : respects R (wait env p t).
Proof. unfold wait. walk F; try (apply silent; reflexivity). Qed.

Lemma respects_terminate (p : pid) : respects R (terminate env p).
Proof. unfold terminate. walk F; try (apply silent; reflexivity). Qed.

Lemma respects_kill (p : pid) : respects R (kill env p).
Proof. unfold kill. walk F; try (apply silent; reflexivity). Qed.

Lemma respects_communicate (p : pid) (t : Z) : respects R (communicate env p t).
Proof. unfold communicate. walk F; try (apply silent; reflexivity). Qed.

Lemma respects_handshake (path : string) :
  P (EvConnect path) -> respects R (handshake env path).
Proof. intro H. unfold handshake. walk F; exact H. Qed.

Lemma respects_cleanup_socket : respects R (_cleanup_socket cfg env).
Proof. unfold _cleanup_socket, log. walk F; try (apply silent; reflexivity). Qed.

Lemma respects_reap_one (dir : string) (p : proc_info) :
  respects R (reap_one env dir p).
Proof. unfold reap_one, dir_conflict, log. walk F; try (apply silent; reflexivity). Qed.

Lemma respects_kill_existing : respects R (_kill_existing_processes cfg env).
Proof.
  unfold _kill_existing_processes, log.
  apply (respects_try_except _ _ F).
  - apply (respects_bind _ _ F); [walk F | intro procs].
    apply (respects_for_each _ _ F). intros p _. apply respects_reap_one.
  - handler_cases; walk F; try (apply silent; reflexivity).
Qed.

Lemma respects_setup_work_dir : respects R (_setup_work_dir cfg env).
Proof. unfold _setup_work_dir. walk F; try (apply silent; reflexivity). Qed.

Lemma respects_install_dependencies (wd : string) :
  respects R (_install_dependencies cfg env wd).
Proof. unfold _install_dependencies, log. walk F; try (apply silent; reflexivity). Qed.

Lemma respects_child_died (p : pid) : respects R (child_died env p).
Proof.
  unfold child_died.
  apply (respects_bind _ _ F); [|intro; walk F].
  apply (respects_try_except _ _ F).
  - apply (respects_bind _ _ F); [apply respects_communicate | intro; walk F].
  - handler_cases; walk F.
Qed.

Lemma respects_startup_timed_out (p : pid) :
  respects R (startup_timed_out cfg env p).
Proof.
  unfold startup_timed_out, log.
  apply (respects_bind _ _ F); [walk F | intro gone].
  apply (respects_bind _ _ F); [|intro; walk F].
  destruct (negb gone); [|walk F].
  apply (respects_bind _ _ F); [walk F; try (apply silent; reflexivity) | intro].
  apply (respects_bind _ _ F); [apply respects_terminate | intro].
  apply (respects_try_except _ _ F); [apply respects_wait|].
  handler_cases.
  apply (respects_bind _ _ F); [walk F; try (apply silent; reflexivity) | intro].
  apply (respects_bind _ _ F); [apply respects_kill | intro].
  apply respects_wait.
Qed.

(** Once [ready_logged] is set the loop makes no handshake. *)
Lemma respects_wait_startup (n : nat) (p : pid) (t0 : Z) (rl : bool) :
  rl = true \/ P (EvConnect (socket_path cfg)) ->
  respects R (wait_startup cfg env n p t0 rl).
Proof.
  revert rl. induction n as [|n IH]; intros rl Hrl; rewrite wait_startup_eq.
  - apply (respects_bind _ _ F); [walk F | intro t].
    destruct (t - t0 <? timeout_ms cfg);
      [walk F | apply respects_startup_timed_out].
  - apply (respects_bind _ _ F); [walk F | intro t].
    destruct (t - t0 <? timeout_ms cfg); [|apply respects_startup_timed_out].
    apply (respects_bind _ _ F); [walk F | intros [|]].
    { apply respects_child_died. }
    apply (respects_bind _ _ F); [walk F | intro present].
    destruct (present && negb rl) eqn:E.
    + assert (Hc : P (EvConnect (socket_path cfg))).
      { destruct Hrl as [->|H]; [|exact H].
        rewrite andb_false_r in E. discriminate E. }
      unfold log.
      apply (respects_bind _ _ F); [walk F; apply silent; reflexivity | intro].
      apply (respects_bind _ _ F); [apply respects_handshake, Hc | intros [|]].
      * walk F; apply silent; reflexivity.
      * apply (respects_bind _ _ F);
          [walk F; apply silent; reflexivity | intro; apply IH; now left].
    + apply (respects_bind _ _ F);
        [walk F; apply silent; reflexivity | intro; apply IH; exact Hrl].
Qed.

End Untouched.

(** ** Histories *)

Lemma since_app (s s' : sys) (new : list event) :
  trace s' = (new ++ trace s)%list -> since s s' = new.
Proof.
  intro H. unfold since. rewrite H, length_app, Nat.add_sub.
  rewrite firstn_app, firstn_all, Nat.sub_diag, firstn_O. apply app_nil_r.
Qed.

Lemma frame_adds (P : event -> Prop) : frame P (adds P).
Proof.
  split.
  - intro s. exists []. split; [reflexivity | constructor].
  - intros a b c (n1 & T1 & F1) (n2 & T2 & F2).
    exists (n2 ++ n1)%list. split.
    + rewrite T2, T1. apply app_assoc.
    + apply Forall_app. split; assumption.
  - intros e s H. exists [e]. split; [reflexivity | now constructor].
  - intros d s. exists []. split; [reflexivity | constructor].
Qed.

Lemma adds_since (P : event -> Prop) (s s' : sys) (e : event) :
  adds P s s' -> In e (since s s') -> P e.
Proof.
  intros (new & T & Hall) H. rewrite (since_app _ _ _ T) in H.
  exact (proj1 (Forall_forall P new) Hall e H).
Qed.

(** ** The working directory *)

Lemma frame_same_cwd : frame unrestricted same_cwd.
Proof. split; unfold same_cwd; intros; simpl; congruence. Qed.

Lemma frame_same_original : frame unrestricted same_original.
Proof. split; unfold same_original; intros; simpl; congruence. Qed.

Lemma frame_same_process : frame unrestricted same_process.
Proof. split; unfold same_process; intros; simpl; congruence. Qed.

Lemma unrestricted_any (e : event) : routine e = true -> unrestricted e.
Proof. intro. exact I. Qed.

(** A sequence hands control back either from its second part or by an
    exception of its first. *)
Lemma exit_bind {A B} (m : M A) (k : A -> M B) (s s' : sys) :
  exit_state (bind m k s) = Some s' ->
  (exists a s1, m s = Returned a s1 /\ exit_state (k a s1) = Some s') \/
  (exists e, m s = Raised e s').
Proof.
  unfold bind. destruct (m s) as [a s1|e s1|s1|s1]; simpl; intro H;
    try discriminate H.
  - left. eauto.
  - right. injection H as <-. eauto.
Qed.

Section WorkingDirectory.

Variable cfg : PGliteConfig.
Variable env : environ.

(** The [finally] clause: the directory is put back unless [os.chdir]
    itself fails, in which case its exception is what comes out. *)
Lemma restored_after {A} (body : M A) (s s' : sys) (d : string) :
  respects same_original body ->
  _original_cwd s = Some d -> d <> EmptyString ->
  exit_state (try_finally body (restore_cwd env) s) = Some s' ->
  cwd s' = d \/
  exists e,
    chdir_error env s' d = Some e /\
    try_finally body (restore_cwd env) s = Raised e s' /\
    s' = final (body s).
Proof.
  intros Hb Ho Hd. unfold try_finally. specialize (Hb s).
  unfold same_original in Hb. rewrite Ho in Hb.
  destruct (body s) as [a s1|e s1|s1|s1]; simpl in Hb; try discriminate;
    unfold restore_cwd, chdir, emit, bind, gets, modify, ret, raise;
    rewrite Hb; destruct d as [|c d]; try congruence; cbn [truthy_str final];
    destruct (chdir_error env s1 (String c d)) as [x|] eqn:Ec; simpl;
    intro H; injection H as <-; eauto.
Qed.

Lemma launch_keeps_original (wd : string) :
  respects same_original (launch cfg env wd).
Proof.
  pose proof frame_same_original as F. unfold launch.
  apply (respects_bind _ _ F);
    [apply (respects_install_dependencies _ _ _ _ F), unrestricted_any | intro].
  unfold log.
  apply (respects_bind _ _ F); [walk F; exact I | intro].
  apply (respects_bind _ _ F); [walk F | intro nmp].
  apply (respects_bind _ _ F); [walk F; exact I | intro].
  apply (respects_bind _ _ F); [walk F; exact I | intro].
  apply (respects_bind _ _ F); [walk F | intros [p|e]; [|walk F]].
  apply (respects_bind _ _ F); [walk F | intro dir].
  apply (respects_bind _ _ F); [walk F; exact I | intro].
  apply (respects_bind _ _ F);
    [apply (respects_modify same_original); intro; reflexivity | intro].
  apply (respects_bind _ _ F); [walk F | intro t0].
  apply (respects_wait_startup _ _ _ _ F unrestricted_any). right. exact I.
Qed.

(** *** Where the child is spawned *)

Lemma routine_no_spawn (e : event) : routine e = true -> no_spawn e.
Proof. destruct e; simpl; auto; discriminate. Qed.

Lemma routine_spawned_in (d : string) (e : event) :
  routine e = true -> spawned_in d e.
Proof. destruct e; simpl; auto; discriminate. Qed.

Lemma no_spawn_in (d : string) (e : event) : no_spawn e -> spawned_in d e.
Proof. destruct e; simpl; auto; contradiction. Qed.

Lemma adds_weaken (P Q : event -> Prop) (s s' : sys) :
  (forall e, P e -> Q e) -> adds P s s' -> adds Q s s'.
Proof.
  intros H (new & T & Hall). exists new. split; [exact T|].
  eapply Forall_impl; [exact H | exact Hall].
Qed.

Lemma frame_stays_in (d : string) : frame (spawned_in d) (stays_in d).
Proof.
  pose proof (frame_adds (spawned_in d)) as F.
  split; unfold stays_in.
  - intros s Hc. repeat split; auto. apply (frame_refl _ _ F).
  - intros a b c H1 H2 Hc.
    destruct (H1 Hc) as (c1 & w1 & a1). destruct (H2 c1) as (c2 & w2 & a2).
    repeat split; [exact c2 | congruence | exact (frame_trans _ _ F _ _ _ a1 a2)].
  - intros e s He Hc. repeat split; auto. apply (frame_record _ _ F), He.
  - intros t s Hc. repeat split; auto. apply (frame_advance _ _ F).
Qed.

Lemma stays_in_gets_cwd {B} (d : string) (k : string -> M B) :
  respects (stays_in d) (k d) -> respects (stays_in d) (bind (gets cwd) k).
Proof.
  intros H s Hc. unfold bind, gets. rewrite Hc. exact (H s Hc).
Qed.

Lemma launch_stays (wd : string) : respects (stays_in wd) (launch cfg env wd).
Proof.
  pose proof (frame_stays_in wd) as F. unfold launch.
  apply (respects_bind _ _ F);
    [apply (respects_install_dependencies _ _ _ _ F), routine_spawned_in | intro].
  unfold log.
  apply (respects_bind _ _ F); [walk F; exact I | intro].
  apply (respects_bind _ _ F); [walk F | intro nmp].
  apply (respects_bind _ _ F); [walk F; exact I | intro].
  apply (respects_bind _ _ F); [walk F; exact I | intro].
  apply (respects_bind _ _ F); [walk F | intros [p|e]; [|walk F]].
  apply stays_in_gets_cwd.
  apply (respects_bind _ _ F); [walk F; reflexivity | intro].
  apply (respects_bind _ _ F).
  { apply respects_modify. intros s Hc. repeat split; auto.
    exists []. split; [reflexivity | constructor]. }
  intro. apply (respects_bind _ _ F); [walk F | intro t0].
  apply (respects_wait_startup _ _ _ _ F (routine_spawned_in wd)).
  right. exact I.
Qed.

Lemma final_bind {A B} (m : M A) (k : A -> M B) (s : sys) :
  final (bind m k s) =
  match m s with
  | Returned a s1 => final (k a s1)
  | Raised _ s1 | Hangs s1 | Unfinished s1 => s1
  end.
Proof. unfold bind. destruct (m s); reflexivity. Qed.

Lemma exit_final {A} (o : outcome A) (s' : sys) :
  exit_state o = Some s' -> s' = final o.
Proof. destruct o; simpl; congruence. Qed.

(** However [start] ends, a child it has spawned was spawned in the
    work directory. *)
Lemma start_spawns_in_work_dir (s : sys) :
  spawns_in_work_dir s (final (start cfg env s)).
Proof.
  pose proof (frame_adds no_spawn) as F0.
  unfold start. rewrite final_bind. unfold gets at 1.
  destruct (process s) as [p|].
  { left. exists [EvLog WARNING "PGlite process already running"].
    split; [reflexivity | repeat constructor]. }
  pose proof (respects_kill_existing cfg env _ _ F0 routine_no_spawn s) as A1.
  rewrite final_bind.
  destruct (_kill_existing_processes cfg env s) as [a1 s1|e s1|s1|s1];
    simpl in A1; try (left; exact A1).
  pose proof (respects_cleanup_socket cfg env _ _ F0 routine_no_spawn s1) as A2.
  rewrite final_bind.
  destruct (_cleanup_socket cfg env s1) as [a2 s2|e s2|s2|s2];
    simpl in A2; try (left; exact (frame_trans _ _ F0 _ _ _ A1 A2)).
  pose proof (respects_setup_work_dir cfg env _ _ F0 routine_no_spawn s2) as A3.
  rewrite final_bind.
  destruct (_setup_work_dir cfg env s2) as [wd s3|e s3|s3|s3];
    simpl in A3;
    try (left; exact (frame_trans _ _ F0 _ _ _ (frame_trans _ _ F0 _ _ _ A1 A2) A3)).
  assert (A : adds no_spawn s s3)
    by exact (frame_trans _ _ F0 _ _ _ (frame_trans _ _ F0 _ _ _ A1 A2) A3).
  clear A1 A2 A3.
  unfold bind at 1, modify at 1.
  unfold bind at 1, getcwd at 1, bind at 1, gets at 1.
  destruct (getcwd_error env (set_work_dir (Some wd) s3)); [left; exact A|].
  unfold gets at 1.
  unfold bind at 1, modify at 1.
  unfold bind at 1, chdir at 1, bind at 1, gets at 1.
  match goal with
  | |- context [chdir_error env ?st wd] => destruct (chdir_error env st wd)
  end; [left; exact A|].
  unfold bind at 1, emit at 1, modify at 1, modify at 1.
  match goal with
  | |- spawns_in_work_dir _ (final (try_finally _ _ ?s4)) => set (s4' := s4)
  end.
  assert (A4 : adds (spawned_in wd) s s4').
  { apply (adds_weaken no_spawn); [apply no_spawn_in|].
    apply (frame_trans _ _ F0 _ s3); [exact A|].
    exists [EvChdir wd]. split; [reflexivity | repeat constructor]. }
  destruct (launch_stays wd s4' eq_refl) as (Bc & Bw & Ba).
  assert (A5 : adds (spawned_in wd) s (final (launch cfg env wd s4')))
    by exact (frame_trans _ _ (frame_adds _) _ _ _ A4 Ba).
  right. exists wd.
  unfold try_finally.
  destruct (launch cfg env wd s4') as [a sb|e sb|sb|sb]; simpl in Bw, A5 |- *;
    try (split; [exact Bw | exact A5]);
    unfold restore_cwd, chdir, emit, bind, gets, modify, ret, raise;
    destruct (truthy_str (_original_cwd sb)); simpl;
    try destruct (chdir_error env sb _); simpl;
    (split; [exact Bw|]); try exact A5;
    (apply (frame_trans _ _ (frame_adds _) _ sb); [exact A5|]);
    eexists [EvChdir _]; (split; [reflexivity | repeat constructor]).
Qed.

(** Where [start] leaves the process: in the directory it was called
    in, unless the [os.chdir] back to it failed; then [start] raises
    the exception of that call and the process is left in the work
    directory. *)
Lemma start_restores_cwd (s s' : sys) :
  cwd s <> EmptyString ->
  exit_state (start cfg env s) = Some s' ->
  cwd s' = cwd s \/
  exists e,
    chdir_error env s' (cwd s) = Some e /\
    start cfg env s = Raised e s' /\
    work_dir s' = Some (cwd s').
Proof.
  intros Hd H.
  remember (start cfg env s) as o eqn:Eo. unfold start in Eo.
  unfold bind at 1, gets at 1 in Eo.
  destruct (process s) as [p|].
  { subst o. simpl in H. injection H as <-. left. reflexivity. }
  unfold bind at 1 in Eo.
  pose proof (respects_kill_existing cfg env _ _ frame_same_cwd
                unrestricted_any s) as K1.
  destruct (_kill_existing_processes cfg env s) as [[] s1|e s1|s1|s1];
    unfold same_cwd in K1; simpl in K1;
    try (subst o; simpl in H;
         first [discriminate H | injection H as <-; left; exact K1]).
  unfold bind at 1 in Eo.
  pose proof (respects_cleanup_socket cfg env _ _ frame_same_cwd
                unrestricted_any s1) as K2.
  destruct (_cleanup_socket cfg env s1) as [[] s2|e s2|s2|s2];
    unfold same_cwd in K2; simpl in K2;
    try (subst o; simpl in H;
         first [discriminate H | injection H as <-; left; congruence]).
  unfold bind at 1 in Eo.
  pose proof (respects_setup_work_dir cfg env _ _ frame_same_cwd
                unrestricted_any s2) as K3.
  destruct (_setup_work_dir cfg env s2) as [wd s3|e s3|s3|s3];
    unfold same_cwd in K3; simpl in K3;
    try (subst o; simpl in H;
         first [discriminate H | injection H as <-; left; congruence]).
  unfold bind at 1, modify at 1 in Eo.
  unfold bind at 1, getcwd at 1, bind at 1, gets at 1 in Eo.
  destruct (getcwd_error env (set_work_dir (Some wd) s3)) as [e|].
  { subst o. simpl in H. injection H as <-. left. simpl. congruence. }
  unfold gets at 1 in Eo.
  unfold bind at 1, modify at 1 in Eo.
  unfold bind at 1, chdir at 1, bind at 1, gets at 1 in Eo.
  match type of Eo with
  | context [chdir_error env ?st wd] => destruct (chdir_error env st wd) as [e|]
  end.
  { subst o. simpl in H. injection H as <-. left. simpl. congruence. }
  unfold bind at 1, emit at 1, modify at 1, modify at 1 in Eo.
  match type of Eo with
  | o = try_finally _ _ ?st => set (s4 := st) in *
  end.
  subst o.
  assert (O4 : _original_cwd s4 = Some (cwd s3)) by reflexivity.
  assert (D4 : cwd s3 <> EmptyString) by congruence.
  destruct (restored_after _ _ _ _ (launch_keeps_original wd) O4 D4 H)
    as [R | (e & Ec & Er & Es)].
  - left. congruence.
  - right. exists e. rewrite <- K1, <- K2, <- K3.
    split; [exact Ec|]. split; [exact Er|].
    destruct (launch_stays wd s4 eq_refl) as (Bc & Bw & _).
    rewrite Es, Bc, Bw. reflexivity.
Qed.

(** C10. [start] changes the working directory of the whole process to
    the work directory before it spawns the child, and puts it back in
    its [finally] clause.  Whenever [start] hands control back, by
    returning or by raising (the child died, the startup timed out, or
    anything else went wrong), the working directory is the one the
    caller had, with one exception: when the [os.chdir] back to that
    directory fails, [start] raises the exception of that call and the
    process stays in the work directory.  A child spawned in between was
    spawned in the work directory.  The directory [os.getcwd()] reports
    is never the empty string. *)
Theorem C10_start_restores_cwd (s s' : sys) :
  cwd s <> EmptyString ->
  exit_state (start cfg env s) = Some s' ->
  (cwd s' = cwd s \/
   exists e,
     chdir_error env s' (cwd s) = Some e /\
     start cfg env s = Raised e s' /\
     work_dir s' = Some (cwd s')) /\
  forall p d o1 o2,
    In (EvSpawn p d o1 o2) (since s s') -> work_dir s' = Some d.
Proof.
  intros Hd H. split; [exact (start_restores_cwd s s' Hd H)|].
  intros p d o1 o2 Hin. rewrite (exit_final _ _ H) in *.
  destruct (start_spawns_in_work_dir s) as [A|(wd & W & A)].
  - destruct (adds_since _ _ _ _ A Hin).
  - rewrite W. f_equal. symmetry. exact (adds_since _ _ _ _ A Hin).
Qed.

End WorkingDirectory.

(** C10 at work: the launcher that exits at once, started from
    /home/user/project. *)
Lemma C10_start_restores_cwd_witness :
  (cwd (final (start cfg2 broken_launcher home)) = cwd home \/
   exists e,
     chdir_error broken_launcher (final (start cfg2 broken_launcher home))
       (cwd home) = Some e /\
     start cfg2 broken_launcher home
       = Raised e (final (start cfg2 broken_launcher home)) /\
     work_dir (final (start cfg2 broken_launcher home))
       = Some (cwd (final (start cfg2 broken_launcher home)))) /\
  forall p d o1 o2,
    In (EvSpawn p d o1 o2) (since home (final (start cfg2 broken_launcher home))) ->
    work_dir (final (start cfg2 broken_launcher home)) = Some d.
Proof.
  apply (C10_start_restores_cwd cfg2 broken_launcher home).
  - discriminate.
  - reflexivity.
Defined.

(** C10 as stated fails when the caller's directory cannot be entered
    again (it was removed, or access to it was lost, while the child
    was starting): the [os.chdir] of the [finally] clause raises, and
    [start] hands control back in the work directory. *)
Lemma C10_chdir_back_fails :
  cwd home <> EmptyString /\
  exists e s',
    start cfg2 vanished_directory home = Raised e s' /\
    cwd s' = "/tmp/py-pglite-x7" /\ cwd s' <> cwd home.
Proof.
  split; [discriminate|]. do 2 eexists.
  split; [vm_compute; reflexivity|]. split; [reflexivity | discriminate].
Qed.

(** ** Stopping *)

(** Case analysis on the next answer of the outside world. *)
Ltac split_oracle :=
  match goal with
  | |- context [match send_signal ?e ?s ?p with _ => _ end] =>
      destruct (send_signal e s p) eqn:?
  | |- context [match exits_in ?e ?s ?p with _ => _ end] =>
      destruct (exits_in e s p) eqn:?
  | |- context [if ?a <=? ?b then _ else _] =>
      destruct (a <=? b) eqn:?
  end.

Section Stopping.

Variable cfg : PGliteConfig.
Variable env : environ.

Lemma shut_down_returns (p : pid) (s : sys) :
  exists s0 e rest,
    shut_down env p s = Returned tt s0 /\
    trace s0 = e :: rest /\ shutdown_report e /\
    process s0 = process s /\ cwd s0 = cwd s.
Proof.
  unfold shutdown_report, shut_down, try_except, terminate, kill, wait, syscall,
    log, emit, bind, gets, modify, ret, raise, raise_if.
  simpl.
  repeat (split_oracle; simpl);
    do 3 eexists; (split; [reflexivity|]); simpl;
    (split; [reflexivity|]); (split; [|split; reflexivity]); eauto 6.
Qed.

(** Socket hygiene by cases on what [exists()] does: its exception
    goes to the caller; a failure of the unlink does not. *)
Lemma cleanup_socket_cases (s : sys) :
  match path_exists env s (socket_path cfg) with
  | inr e => _cleanup_socket cfg env s = Raised e s
  | inl false => _cleanup_socket cfg env s = Returned tt s
  | inl true =>
      exists s',
        _cleanup_socket cfg env s = Returned tt s' /\
        process s' = process s /\ cwd s' = cwd s /\
        In (EvUnlink (socket_path cfg)) (since s s')
  end.
Proof.
  destruct (path_exists env s (socket_path cfg)) as [[|]|e] eqn:E;
    unfold _cleanup_socket; unfold bind at 1; rewrite exists_eq, E;
    try reflexivity.
  unfold try_except, syscall, log, emit, bind, gets, modify, ret, raise, raise_if.
  destruct (unlink env s (socket_path cfg)); simpl;
    eexists; (split; [reflexivity|]); simpl;
    (split; [reflexivity|]); (split; [reflexivity|]);
    rewrite (since_app _ _ [_; _]) by reflexivity; simpl; auto.
Qed.

End Stopping.

(** C5 (what the code does instead).  A healthy start; four seconds
    later the directory of the socket can no longer be searched.  [stop]
    shuts the child down gracefully and clears the handle, and then
    raises: [_cleanup_socket], called in the [finally] clause, asks
    [socket_path.exists()] before its [try], and the [PermissionError]
    of that call is nobody's to catch. *)
Theorem C5_stop_raises_when_exists_raises :
  exists s1 s2,
    start cfg2 locked_socket_dir home = Returned tt s1 /\
    is_running locked_socket_dir (advance 4000 s1)
      = Returned true (advance 4000 s1) /\
    stop cfg2 locked_socket_dir (advance 4000 s1) =
      Raised (OSError "[Errno 13] Permission denied: '/tmp/py-pglite/.s.PGSQL.5432'")
        s2 /\
    process s2 = None /\
    hd_error (trace s2) = Some (EvLog INFO "PGlite server stopped gracefully").
Proof.
  do 2 eexists. split; [vm_compute; reflexivity|].
  split; [reflexivity|]. split; [vm_compute; reflexivity|].
  split; reflexivity.
Qed.

(** ** Accessors *)

Section Gate.

Variable cfg : PGliteConfig.
Variable env : environ.
Variable fmt : ConfigFormat.

Lemma is_running_polls (s : sys) : is_running env s = Returned (alive env s) s.
Proof.
  unfold is_running, alive, bind, gets, ret. destruct (process s); reflexivity.
Qed.

(** C7. [is_running] is a poll of the operating system made at the time
    of the call: true iff there is a process handle and the process has
    not exited.  Each of the three accessors raises the "not running"
    error exactly when that poll says false, and otherwise returns what
    the configuration derives, a string that references the configured
    socket path; none of them changes anything. *)
Theorem C7_accessors_gated_by_is_running (s : sys) :
  is_running env s = Returned (alive env s) s /\
  (alive env s = true <-> exists p, process s = Some p /\ exited env s p = false) /\
  get_connection_string cfg env fmt s =
    (if alive env s then Returned (config_get_connection_string fmt cfg) s
     else Raised not_running s) /\
  get_dsn cfg env fmt s =
    (if alive env s then Returned (config_get_dsn fmt cfg) s
     else Raised not_running s) /\
  get_psycopg_uri cfg env fmt s =
    (if alive env s then Returned (config_get_psycopg_uri fmt cfg) s
     else Raised not_running s) /\
  str_in (socket_path cfg) (config_get_connection_string fmt cfg) = true /\
  str_in (socket_path cfg) (config_get_dsn fmt cfg) = true /\
  str_in (socket_path cfg) (config_get_psycopg_uri fmt cfg) = true.
Proof.
  split; [apply is_running_polls|].
  split.
  { unfold alive. destruct (process s) as [p|].
    - split.
      + intro H. exists p. split; [reflexivity|].
        now destruct (exited env s p).
      + intros (q & E & H). injection E as ->. now rewrite H.
    - split; [discriminate | intros (q & E & _); discriminate E]. }
  unfold get_connection_string, get_dsn, get_psycopg_uri.
  unfold bind. rewrite is_running_polls.
  repeat split; try (destruct (alive env s); reflexivity);
    apply (format_references_endpoint fmt cfg).
Qed.

End Gate.

(** ** Waiting for the database *)


Lemma actions_since (s s' : sys) (new : list event) :
  trace s' = (new ++ trace s)%list -> actions s s' = quiet_actions new.
Proof. intro H. unfold actions. rewrite (since_app _ _ _ H). reflexivity. Qed.




Section Readiness.

Variable cfg : PGliteConfig.
Variable env : environ.
Variable fmt : ConfigFormat.

Let dsn : string := config_get_dsn fmt cfg.




End Readiness.



(** ** The child dies during startup *)




(** ** Conflict reclamation *)

Section Reclamation.

Variable cfg : PGliteConfig.
Variable env : environ.

Lemma reap_one_spares (victim : pid) (q : proc_info) :
  (pi_pid q = victim ->
   exists c, pi_cwd q = Some c /\
             contained_either_way (my_socket_dir cfg env) c = false) ->
  respects (adds (not_killing victim)) (reap_one env (my_socket_dir cfg env) q).
Proof.
  intro H. pose proof (frame_adds (not_killing victim)) as F.
  destruct (Z.eq_dec (pi_pid q) victim) as [E|E].
  - destruct (H E) as (c & Hc & Hn).
    unfold contained_either_way in Hn.
    unfold reap_one, dir_conflict. rewrite Hc, Hn.
    destruct (names_launcher q); [|walk F].
    intro s. unfold try_except, bind, ret. simpl. apply (frame_refl _ _ F).
  - unfold reap_one, dir_conflict, log.
    walk F; unfold not_killing; congruence.
Qed.

(** X14. What conflict reclamation does guarantee between two
    supervisors.  Take two supervisors with different socket directories
    and the child of the second in the process table, its pid not shared
    with another entry.  If the child's working directory neither
    contains the first supervisor's socket directory as a substring nor
    is contained in it, the first supervisor's conflict reclamation does
    not kill that child. *)
Theorem reclamation_spares_unrelated_child
  (other : PGliteConfig) (child : proc_info) (c : string) (s : sys) :
  my_socket_dir cfg env <> my_socket_dir other env ->
  (forall q, In q (process_iter env s) -> pi_pid q = pi_pid child -> q = child) ->
  pi_cwd child = Some c ->
  str_in (my_socket_dir cfg env) c = false ->
  str_in c (my_socket_dir cfg env) = false ->
  ~ In (EvPsKill (pi_pid child))
       (since s (final (_kill_existing_processes cfg env s))).
Proof.
  intros _ Huniq Hc H1 H2 Hin.
  pose proof (frame_adds (not_killing (pi_pid child))) as F.
  assert (K : adds (not_killing (pi_pid child)) s
                (final (_kill_existing_processes cfg env s))).
  { unfold _kill_existing_processes, try_except, bind at 1, gets at 1.
    pose proof (respects_for_each _ _ F
                  (reap_one env (my_socket_dir cfg env)) (process_iter env s)) as L.
    assert (Hl : adds (not_killing (pi_pid child)) s
                   (final (for_each (reap_one env (my_socket_dir cfg env))
                             (process_iter env s) s))).
    { apply L. intros q Hq. apply reap_one_spares. intro E.
      rewrite (Huniq q Hq E). exists c. split; [exact Hc|].
      unfold contained_either_way. now rewrite H1, H2. }
    destruct (for_each _ _ s) as [a s1|e s1|s1|s1]; simpl in *; auto.
    apply (frame_trans _ _ F _ s1); [exact Hl|].
    apply (frame_record _ _ F). unfold not_killing. discriminate. }
  exact (adds_since _ _ _ _ K Hin eq_refl).
Qed.

End Reclamation.

(** The launcher running in /srv/other/work is spared by the supervisor
    whose socket is in /tmp/py-pglite. *)
Lemma reclamation_spares_unrelated_child_witness :
  ~ In (EvPsKill (pi_pid child_far))
       (since home (final (_kill_existing_processes cfg_a shared_tmp home))).
Proof.
  apply (reclamation_spares_unrelated_child cfg_a shared_tmp cfg_b child_far
           "/srv/other/work" home).
  - vm_compute. discriminate.
  - intros q [H|[H|[]]] E; subst q; [discriminate E | reflexivity].
  - reflexivity.
  - vm_compute. reflexivity.
  - vm_compute. reflexivity.
Defined.

(** C4 (what the code does instead).  The two socket directories differ
    and the second supervisor's child runs in a directory that is
    neither of them, nor inside either of them: it is a sibling of the
    first one.  Yet the first supervisor kills it.  The test that is
    meant to confine the kill to "processes in the same socket
    directory" is a test on substrings, and the path /tmp/py-pglite-x7
    has /tmp/py-pglite as a substring. *)
Lemma C4_sibling_directory_is_killed :
  my_socket_dir cfg_a shared_tmp = "/tmp/py-pglite" /\
  my_socket_dir cfg_b shared_tmp = "/tmp/py-pglite-b" /\
  pi_cwd child_b = Some "/tmp/py-pglite-x7" /\
  my_socket_dir cfg_a shared_tmp <> my_socket_dir cfg_b shared_tmp /\
  Some (my_socket_dir cfg_a shared_tmp) <> pi_cwd child_b /\
  Some (my_socket_dir cfg_b shared_tmp) <> pi_cwd child_b /\
  In (EvPsKill (pi_pid child_b))
     (since home (final (_kill_existing_processes cfg_a shared_tmp home))).
Proof.
  repeat split; try reflexivity; try (vm_compute; discriminate).
  vm_compute. auto.
Qed.

(** ** The handshake of the readiness loop *)

Lemma routine_no_connect (e : event) : routine e = true -> no_connect e.
Proof. unfold no_connect. destruct e; simpl; congruence. Qed.

Lemma adds_no_probe (s s' : sys) : adds no_connect s s' -> probes_at_most 0 s s'.
Proof.
  intros (new & T & Hall). exists new. split; [exact T|]. clear T.
  induction Hall as [|e l He _ IH]; simpl; [lia|].
  unfold no_connect in He. rewrite He. exact IH.
Qed.

Lemma probes_trans (a b : nat) (s s1 s2 : sys) :
  probes_at_most a s s1 -> probes_at_most b s1 s2 -> probes_at_most (a + b) s s2.
Proof.
  intros (n1 & T1 & L1) (n2 & T2 & L2). exists (n2 ++ n1)%list. split.
  - rewrite T2, T1. apply app_assoc.
  - rewrite filter_app, length_app. lia.
Qed.

Lemma probes_le (a b : nat) (s s' : sys) :
  (a <= b)%nat -> probes_at_most a s s' -> probes_at_most b s s'.
Proof. intros H (new & T & L). exists new. split; [exact T | lia]. Qed.

Section Handshake.

Variable cfg : PGliteConfig.
Variable env : environ.

Lemma no_probe_once_logged (n : nat) (p : pid) (t0 : Z) (s : sys) :
  probes_at_most 0 s (final (wait_startup cfg env n p t0 true s)).
Proof.
  apply adds_no_probe.
  apply (respects_wait_startup cfg env _ _ (frame_adds no_connect)
           routine_no_connect).
  now left.
Qed.

(** However the outside world behaves, the readiness loop attempts the
    handshake at most once: after the first attempt, failed or not, it
    never probes again. *)
Lemma wait_startup_probes_once (n : nat) (p : pid) (t0 : Z) (s : sys) :
  probes_at_most 1 s (final (wait_startup cfg env n p t0 false s)).
Proof.
  pose proof (frame_adds no_connect) as F.
  assert (Hout : forall s0, probes_at_most 1 s0
                   (final (startup_timed_out cfg env p s0))).
  { intro s0. apply (probes_le 0); [lia|]. apply adds_no_probe.
    apply (respects_startup_timed_out cfg env _ _ F routine_no_connect). }
  revert s. induction n as [|n IH]; intro s;
    rewrite wait_startup_eq; unfold bind at 1, gets at 1;
    destruct (now s - t0 <? timeout_ms cfg); try apply Hout.
  - exists []. split; [reflexivity | simpl; lia].
  - unfold bind at 1, gets at 1. destruct (exited env s p).
    { apply (probes_le 0); [lia|]. apply adds_no_probe.
      apply (respects_child_died env _ _ F routine_no_connect). }
    unfold bind at 1. rewrite exists_eq.
    destruct (path_exists env s (socket_path cfg)) as [[|]|e]; cbn [andb negb].
    3:{ exists []. split; [reflexivity | simpl; lia]. }
    + rewrite sleep_500.
      unfold log, emit, handshake, syscall, bind, gets, modify, ret.
      simpl.
      destruct (fst (connect env (record _ s) (socket_path cfg))); simpl.
      * exists [EvLog INFO "PGlite server started successfully";
                EvConnect (socket_path cfg);
                EvLog INFO "PGlite socket created, server should be ready..."].
        split; [reflexivity | simpl; lia].
      * eapply (probes_trans 1 0); [|apply no_probe_once_logged].
        exists [EvSleep 500; EvConnect (socket_path cfg);
                EvLog INFO "PGlite socket created, server should be ready..."].
        split; [reflexivity | simpl; lia].
    + rewrite sleep_500. unfold emit, bind, modify. simpl.
      eapply (probes_trans 0 1); [|apply IH].
      exists [EvSleep 500]. split; [reflexivity | simpl; lia].
Qed.

End Handshake.

(** ** The process handle *)

Lemma returned_bind {A B} (m : M A) (k : A -> M B) (s s' : sys) (b : B) :
  bind m k s = Returned b s' ->
  exists a s1, m s = Returned a s1 /\ k a s1 = Returned b s'.
Proof.
  unfold bind. destruct (m s) as [a s1|e s1|s1|s1]; intro H;
    try discriminate H. eauto.
Qed.

Section Handle.

Variable cfg : PGliteConfig.
Variable env : environ.

(** The readiness loop never lets go of the handle, however it ends. *)
Lemma wait_startup_keeps_handle (n : nat) (p : pid) (t0 : Z) (rl : bool) (s : sys) :
  process (final (wait_startup cfg env n p t0 rl s)) = process s.
Proof.
  apply (respects_wait_startup cfg env _ _ frame_same_process unrestricted_any).
  right. exact I.
Qed.

Lemma launch_returns_with_handle (wd : string) (s s' : sys) :
  launch cfg env wd s = Returned tt s' -> exists p, process s' = Some p.
Proof.
  unfold launch. intro H.
  do 5 (apply returned_bind in H; destruct H as (? & ? & _ & H)).
  apply returned_bind in H. destruct H as (r & s1 & _ & H).
  destruct r as [p|e]; [|discriminate H].
  unfold bind at 1, gets at 1 in H.
  unfold bind at 1, emit at 1, modify at 1 in H.
  unfold bind at 1, modify at 1 in H.
  unfold bind at 1, gets at 1 in H.
  exists p.
  match type of H with
  | wait_startup _ _ ?n _ ?t0 ?rl ?s0 = _ =>
      pose proof (wait_startup_keeps_handle n p t0 rl s0) as K
  end.
  rewrite H in K. exact K.
Qed.

(** A [start] that returns leaves a handle behind. *)
Lemma start_returns_with_handle (s s' : sys) :
  start cfg env s = Returned tt s' -> exists p, process s' = Some p.
Proof.
  unfold start. unfold bind at 1, gets at 1.
  destruct (process s) as [p|] eqn:Hp.
  - intro H. injection H as <-. exists p. exact Hp.
  - intro H.
    do 6 (apply returned_bind in H; destruct H as (? & ? & _ & H)).
    apply returned_bind in H. destruct H as ([] & s0 & _ & H).
    unfold try_finally in H.
    match type of H with
    | match launch _ _ ?wd ?s0 with _ => _ end = _ =>
        destruct (launch cfg env wd s0) as [[] sb|e sb|sb|sb] eqn:L;
          try discriminate H;
          [destruct (launch_returns_with_handle _ _ _ L) as (p & Hb)|]
    end.
    + exists p. revert H.
      unfold restore_cwd, chdir, emit, bind, gets, modify, ret.
      destruct (truthy_str (_original_cwd sb)); simpl;
        try destruct (chdir_error env sb _); simpl;
        intro H; try discriminate H; injection H as <-; exact Hb.
    + revert H. unfold restore_cwd, chdir, emit, bind, gets, modify, ret, raise.
      destruct (truthy_str (_original_cwd sb)); simpl;
        try destruct (chdir_error env sb _); simpl; discriminate.
Qed.

(** Two calls of [start] with no [stop] in between: the second one only
    writes its warning, so that at most one child has been spawned. *)
Lemma start_twice_spawns_once (s s1 : sys) :
  start cfg env s = Returned tt s1 ->
  start cfg env s1 =
    Returned tt (record (EvLog WARNING "PGlite process already running") s1).
Proof.
  intro H. destruct (start_returns_with_handle _ _ H) as (p & Hp).
  unfold start, bind, gets. rewrite Hp. reflexivity.
Qed.

End Handle.

(** ** Where [start] falls short *)

(** With a handle, [start] looks no further: it does not ask whether the
    process behind the handle is still there. *)
Lemma start_declines_with_handle (cfg : PGliteConfig) (env : environ)
  (s : sys) (p : pid) :
  process s = Some p ->
  start cfg env s =
    Returned tt (record (EvLog WARNING "PGlite process already running") s).
Proof. intro H. unfold start, bind, gets. rewrite H. reflexivity. Qed.

(** C1 (what the code does instead).  The socket file is there from the
    spawn on, the first handshake fails, and from half a second later a
    handshake would succeed.  [start] sets [ready_logged] before it
    tries the handshake, so the [if] that guards the handshake is never
    entered again: it sleeps until the two seconds are over and raises
    the timeout error, having tried one single handshake, although the
    file is still there and the engine accepts connections. *)
Theorem C1_failed_handshake_is_not_retried :
  exists s',
    start cfg2 slow_bind home =
      Raised (RuntimeError "PGlite server failed to start within 2 seconds") s' /\
    filter is_connect (since home s') = [EvConnect "/tmp/py-pglite/.s.PGSQL.5432"] /\
    path_exists slow_bind s' (socket_path cfg2) = inl true /\
    connect slow_bind s' (socket_path cfg2) = (true, 0).
Proof. eexists. split; [vm_compute; reflexivity|]. repeat split. Qed.

(** C2 (what the code does instead).  The launcher exits at once, so
    [start] raises "PGlite process died during startup"; it leaves the
    handle of the dead process in [self.process].  A second [start] on
    the same manager then sees a handle, logs "already running" and
    returns: no reclamation, no cleanup, no spawn, and still no running
    process. *)
Theorem C2_second_start_after_failure_does_nothing :
  exists s1 s2,
    start cfg2 broken_launcher home =
      Raised
        (RuntimeError
           "PGlite process died during startup. Output: Error: Cannot find module")
        s1 /\
    process s1 = Some 4242 /\
    start cfg2 broken_launcher s1 = Returned tt s2 /\
    since s1 s2 = [EvLog WARNING "PGlite process already running"] /\
    is_running broken_launcher s2 = Returned false s2.
Proof.
  do 2 eexists. split; [vm_compute; reflexivity|].
  split; [reflexivity|]. split; [vm_compute; reflexivity|].
  split; reflexivity.
Qed.

(** C3 (what the code does instead).  A healthy start, after which the
    child crashes.  Six seconds later [is_running] says false, yet
    [start] declines to spawn, because it tests the handle and not the
    process: the two calls of [start] leave no live child at all. *)
Theorem C3_start_declines_for_a_dead_process :
  exists s1 s2,
    start cfg2 crash_later home = Returned tt s1 /\
    is_running crash_later s1 = Returned true s1 /\
    is_running crash_later (advance 6000 s1) = Returned false (advance 6000 s1) /\
    start cfg2 crash_later (advance 6000 s1) = Returned tt s2 /\
    since (advance 6000 s1) s2 = [EvLog WARNING "PGlite process already running"] /\
    is_running crash_later s2 = Returned false s2.
Proof.
  do 2 eexists. split; [vm_compute; reflexivity|].
  split; [reflexivity|]. split; [reflexivity|].
  split; [vm_compute; reflexivity|].
  split; reflexivity.
Qed.

(** C6 (what the code does instead).  The child never binds its socket,
    ignores SIGTERM and is not reaped after SIGKILL.  When the two
    seconds are over [start] terminates it and waits five seconds, kills
    it, and then calls [self.process.wait()] with no timeout: it never
    comes back, and the timeout error is never raised.  [stop] bounds
    the same wait by two seconds and returns. *)
Theorem C6_start_hangs_in_unbounded_wait :
  exists s' s'',
    start cfg2 stuck_child home = Hangs s' /\
    hd_error (trace s') = Some (EvWait 4242 None) /\
    now s' = 2000 + 5000 /\
    stop cfg2 stuck_child s' = Returned tt s'' /\
    now s'' = now s' + 5000 + 2000.
Proof.
  do 2 eexists. split; [vm_compute; reflexivity|].
  split; [reflexivity|]. split; [reflexivity|].
  split; [vm_compute; reflexivity|]. reflexivity.
Qed.

(** The three ways in which [start] hands control back, each with the
    working directory of the caller in place again. *)
Example start_returns_in_callers_directory :
  exists s', start cfg2 crash_later home = Returned tt s' /\
             In (EvChdir "/tmp/py-pglite-x7") (trace s') /\ cwd s' = cwd home.
Proof. eexists. split; [vm_compute; reflexivity|]. simpl. auto 10. Qed.

Example start_times_out_in_callers_directory :
  exists s',
    start cfg2 slow_bind home =
      Raised (RuntimeError "PGlite server failed to start within 2 seconds") s' /\
    In (EvChdir "/tmp/py-pglite-x7") (trace s') /\ cwd s' = cwd home.
Proof. eexists. split; [vm_compute; reflexivity|]. simpl. auto 20. Qed.

(** * Further properties *)

(** ** The anatomy of [start] *)

Lemma frame_weaken (P Q : event -> Prop) (R : sys -> sys -> Prop) :
  (forall e, Q e -> P e) -> frame P R -> frame Q R.
Proof. intros H [r t c a]. split; auto. Qed.

Lemma frame_both (P : event -> Prop) (R1 R2 : sys -> sys -> Prop) :
  frame P R1 -> frame P R2 -> frame P (fun s s' => R1 s s' /\ R2 s s').
Proof.
  intros [r1 t1 c1 a1] [r2 t2 c2 a2]. split.
  - intro s. split; auto.
  - intros a b c [H1 H2] [H3 H4]. split; eauto.
  - intros e s H. split; auto.
  - intros d s. split; auto.
Qed.

Lemma frame_untouched : frame unrestricted untouched.
Proof. split; unfold untouched; intros; simpl; intuition congruence. Qed.

Lemma routine_preparing (e : event) : routine e = true -> preparing e.
Proof.
  intro H. split; [now apply routine_no_spawn | now apply routine_no_connect].
Qed.

Lemma frame_prepares : frame preparing prepares.
Proof.
  apply frame_both.
  - apply (frame_weaken unrestricted); [intros; exact I | apply frame_untouched].
  - apply frame_adds.
Qed.

Lemma quiet_returns {A} (m : M A) (s : sys) :
  within quiet m -> exists a s', m s = Returned a s'.
Proof.
  intro H. specialize (H s). destruct (m s); simpl in H; try discriminate. eauto.
Qed.

Lemma back_cases {A} (m : M A) (s : sys) :
  within back m ->
  (exists a s', m s = Returned a s') \/ (exists e s', m s = Raised e s').
Proof.
  intro H. specialize (H s). destruct (m s); simpl in H; try discriminate; eauto.
Qed.

Section Anatomy.
Variable cfg : PGliteConfig.
Variable env : environ.

Lemma prepares_log (s s' : sys) (l : level) (m : string) :
  prepares s s' -> prepares s (record (EvLog l m) s').
Proof.
  intro H. apply (frame_trans _ _ frame_prepares _ s'); [exact H|].
  apply (frame_record _ _ frame_prepares). split; [exact I | reflexivity].
Qed.

(** [start] without a handle, up to the socket cleanup: reclamation
    always returns; the cleanup returns, or raises what [exists()]
    raised, and that ends [start]. *)
Lemma start_after_cleanup (s : sys) :
  process s = None ->
  exists s_a,
    _kill_existing_processes cfg env s = Returned tt s_a /\
    prepares s s_a /\
    ((exists e s_b,
        _cleanup_socket cfg env s_a = Raised e s_b /\
        prepares s_a s_b /\ start cfg env s = Raised e s_b) \/
     (exists s_b,
        _cleanup_socket cfg env s_a = Returned tt s_b /\
        prepares s_a s_b /\
        start cfg env s = provision_and_launch cfg env s_b)).
Proof.
  intro Hp.
  destruct (quiet_returns _ s (kill_existing_quiet cfg env)) as ([] & s_a & Ea).
  exists s_a. split; [exact Ea|]. split.
  { pose proof (respects_kill_existing cfg env _ _ frame_prepares
                  routine_preparing s) as K.
    rewrite Ea in K. exact K. }
  pose proof (respects_cleanup_socket cfg env _ _ frame_prepares
                routine_preparing s_a) as K.
  assert (S : start cfg env s =
              (_cleanup_socket cfg env ;; provision_and_launch cfg env)%py s_a).
  { unfold start, provision_and_launch. unfold bind at 1, gets at 1. rewrite Hp.
    unfold bind at 1. rewrite Ea. reflexivity. }
  rewrite S. unfold bind at 1 2.
  destruct (back_cases _ s_a (cleanup_socket_back cfg env))
    as [([] & s_b & Eb)|(e & s_b & Eb)]; rewrite Eb in K |- *; simpl in K.
  - right. exists s_b. auto.
  - left. exists e, s_b. auto.
Qed.

(** The [try] block either fails before it has spawned anything, or
    spawns one child and goes into the readiness loop. *)
Lemma launch_anatomy (wd : string) (s : sys) :
  (exists e sf, launch cfg env wd s = Raised e sf /\ prepares s sf) \/
  (exists s1 p nmp,
     prepares s s1 /\ popen env s1 = inl p /\
     launch cfg env wd s =
       wait_startup cfg env (startup_bound cfg) p (now s1) false
         (set_process (Some p)
            (record (EvSpawn p (cwd s1)
                       (if truthy_str (node_options cfg)
                        then node_options cfg else None) nmp) s1))).
Proof.
  unfold launch.
  pose proof (respects_install_dependencies cfg env _ _ frame_prepares
                routine_preparing wd s) as K.
  destruct (back_cases _ s (install_dependencies_within cfg env back
                              eq_refl eq_refl wd))
    as [([] & s0 & E)|(e & s0 & E)]; rewrite E in K; simpl in K.
  2:{ left. exists e, s0. split; [|exact K]. unfold bind at 1. rewrite E. reflexivity. }
  cbv beta iota delta [bind log emit gets modify ret raise].
  rewrite E. cbv beta iota.
  destruct (truthy_str (node_options cfg)); cbv beta iota;
    match goal with
    | |- context [find_pglite_modules env ?st wd] =>
        destruct (find_pglite_modules env st wd) as [m|] eqn:Em
    end; cbv beta iota;
    match goal with
    | |- context [popen env ?st] => destruct (popen env st) as [p|e] eqn:Ep
    end; cbv beta iota;
    try (left; do 2 eexists; split; [reflexivity | repeat apply prepares_log; exact K]);
    match type of Ep with
    | popen env ?st = _ =>
        right; exists st, p; eexists;
        (split; [repeat apply prepares_log; exact K | split; [exact Ep | reflexivity]])
    end.
Qed.

End Anatomy.

Section Anatomy2.
Variable cfg : PGliteConfig.
Variable env : environ.

Lemma prepares_chdir (s s' : sys) (d : string) :
  adds preparing s s' -> adds preparing s (set_cwd d (record (EvChdir d) s')).
Proof.
  intros (new & T & Hall). exists (EvChdir d :: new). split.
  - simpl. rewrite T. reflexivity.
  - constructor; [split; [exact I | reflexivity] | exact Hall].
Qed.

(** The [finally] clause changes nothing but the working directory; it
    fails only when [os.chdir] does, and then changes nothing at all. *)
Lemma restore_cwd_cases (sb : sys) :
  exists sf,
    (restore_cwd env sb = Returned tt sf \/
     exists x d, chdir_error env sb d = Some x /\
                 restore_cwd env sb = Raised x sf /\ sf = sb) /\
    process sf = process sb /\ work_dir sf = work_dir sb /\ now sf = now sb /\
    (trace sf = trace sb \/ exists d, trace sf = EvChdir d :: trace sb).
Proof.
  unfold restore_cwd, chdir, emit, bind, gets, modify, ret, raise.
  destruct (truthy_str (_original_cwd sb)).
  - match goal with
    | |- context [chdir_error env sb ?d] =>
        destruct (chdir_error env sb d) as [x|] eqn:Ec
    end.
    + exists sb. split; [right; eauto|]. auto.
    + eexists. split; [left; reflexivity|]. simpl. eauto 6.
  - exists sb. split; [left; reflexivity|]. auto.
Qed.

(** A [try] block under the [finally] clause of [start]. *)
Lemma finally_restore {A} (m : M A) (s0 : sys) :
  let sb := final (m s0) in
  let sf := final (try_finally m (restore_cwd env) s0) in
  process sf = process sb /\ work_dir sf = work_dir sb /\ now sf = now sb /\
  (trace sf = trace sb \/ exists d, trace sf = EvChdir d :: trace sb) /\
  (forall a s', try_finally m (restore_cwd env) s0 = Returned a s' ->
                m s0 = Returned a sb) /\
  (forall e, m s0 = Raised e sb ->
             try_finally m (restore_cwd env) s0 = Raised e sf \/
             exists x d, chdir_error env sb d = Some x /\
                         try_finally m (restore_cwd env) s0 = Raised x sf).
Proof.
  unfold try_finally.
  destruct (m s0) as [a sb|e sb|sb|sb]; simpl;
    try (repeat split; auto; discriminate);
    destruct (restore_cwd_cases sb)
      as (sf & [E|(x & d & Ec & E & ->)] & Hp & Hw & Hn & Ht);
    unfold bind; rewrite E; simpl; repeat split; auto;
    try discriminate;
    try (intros a' s' H; injection H as <- _; reflexivity);
    intros e' H; try discriminate H; try (injection H as <-); eauto.
Qed.

(** After the cleanup, [start] either fails before it has spawned
    anything, without a handle, or it spawns one child in the work
    directory and runs the readiness loop under its [finally] clause. *)
Lemma provision_anatomy (s : sys) :
  (exists e sf,
     provision_and_launch cfg env s = Raised e sf /\
     process sf = process s /\ adds preparing s sf) \/
  (exists s1 p o1 o2,
     adds preparing s s1 /\ process s1 = process s /\
     work_dir s1 = Some (cwd s1) /\ _original_cwd s1 = Some (cwd s) /\
     popen env s1 = inl p /\
     provision_and_launch cfg env s =
       try_finally
         (wait_startup cfg env (startup_bound cfg) p (now s1) false)
         (restore_cwd env)
         (set_process (Some p) (record (EvSpawn p (cwd s1) o1 o2) s1))).
Proof.
  pose proof (respects_setup_work_dir cfg env _ _ frame_prepares
                routine_preparing s) as K.
  remember (provision_and_launch cfg env s) as o eqn:Eo.
  unfold provision_and_launch in Eo. unfold bind at 1 in Eo.
  destruct (back_cases _ s (setup_work_dir_within cfg env back eq_refl eq_refl))
    as [(wd & s0 & E)|(e & s0 & E)]; rewrite E in K, Eo; simpl in K;
    destruct K as ((Kp & Kw & Ko & Kc) & Ka).
  2:{ left. exists e, s0. auto. }
  unfold bind at 1, modify at 1 in Eo.
  unfold bind at 1, getcwd at 1, bind at 1, gets at 1 in Eo.
  destruct (getcwd_error env (set_work_dir (Some wd) s0)) as [e|].
  { left. exists e. eexists. split; [exact Eo|]. split; [exact Kp | exact Ka]. }
  unfold gets at 1 in Eo.
  unfold bind at 1, modify at 1 in Eo.
  unfold bind at 1, chdir at 1, bind at 1, gets at 1 in Eo.
  match type of Eo with
  | context [chdir_error env ?st wd] => destruct (chdir_error env st wd) as [e|]
  end.
  { left. exists e. eexists. split; [exact Eo|]. split; [exact Kp | exact Ka]. }
  unfold bind at 1, emit at 1, modify at 1, modify at 1 in Eo.
  set (s4 := set_cwd wd
               (record (EvChdir wd)
                  (set_original_cwd (Some (cwd s0)) (set_work_dir (Some wd) s0)))).
  change (o = try_finally (launch cfg env wd) (restore_cwd env) s4) in Eo.
  assert (A4 : adds preparing s s4) by (apply prepares_chdir; exact Ka).
  assert (F4 : process s4 = process s0 /\ work_dir s4 = Some wd /\
               _original_cwd s4 = Some (cwd s0) /\ cwd s4 = wd)
    by (repeat split).
  destruct F4 as (Fp & Fw & Fo & Fc). clearbody s4.
  destruct (launch_anatomy cfg env wd s4)
    as [(e & sf & L & (Lp & Lw & Lo & Lc) & La)
       |(s1 & p & nmp & ((Lp & Lw & Lo & Lc) & La) & Ep & L)].
  - left.
    destruct (finally_restore (launch cfg env wd) s4)
      as (Rp & _ & _ & Rt & _ & Rr).
    rewrite L in Rp, Rt, Rr. cbn [final] in Rp, Rt, Rr.
    rewrite <- Eo in Rp, Rt, Rr.
    assert (X : exists x, o = Raised x (final o)).
    { destruct (Rr e eq_refl) as [H|(x & d & _ & H)]; eauto. }
    destruct X as (x & X). exists x, (final o).
    split; [exact X|]. split; [rewrite Rp, Lp, Fp; exact Kp|].
    apply (frame_trans _ _ (frame_adds _) _ sf);
      [exact (frame_trans _ _ (frame_adds _) _ _ _ A4 La)|].
    destruct Rt as [Rt|(d & Rt)].
    + exists []. split; [exact Rt | constructor].
    + exists [EvChdir d]. split; [exact Rt|].
      repeat constructor.
  - right. exists s1, p. do 2 eexists.
    split; [exact (frame_trans _ _ (frame_adds _) _ _ _ A4 La)|].
    split; [rewrite Lp, Fp; exact Kp|].
    split; [rewrite Lw, Lc, Fw, Fc; reflexivity|].
    split; [rewrite Lo, Fo, Kc; reflexivity|].
    split; [exact Ep|].
    rewrite Eo. unfold try_finally. rewrite L. reflexivity.
Qed.

(** The two ways a [start] without a handle can go, as far as its
    readiness loop. *)
Lemma start_anatomy (s : sys) :
  process s = None ->
  (exists e sf,
     start cfg env s = Raised e sf /\
     process sf = None /\ adds preparing s sf) \/
  (exists s1 p o1 o2,
     adds preparing s s1 /\ process s1 = None /\
     work_dir s1 = Some (cwd s1) /\
     popen env s1 = inl p /\
     start cfg env s =
       try_finally
         (wait_startup cfg env (startup_bound cfg) p (now s1) false)
         (restore_cwd env)
         (set_process (Some p) (record (EvSpawn p (cwd s1) o1 o2) s1))).
Proof.
  intro Hp.
  destruct (start_after_cleanup cfg env s Hp)
    as (s_a & _ & ((Ap & _) & Aa)
        & [(e & s_b & _ & ((Bp & _) & Ba) & S)|(s_b & _ & ((Bp & _) & Ba) & S)]);
    assert (A : adds preparing s s_b)
      by exact (frame_trans _ _ (frame_adds _) _ _ _ Aa Ba).
  { left. exists e, s_b. split; [exact S|]. split; [congruence | exact A]. }
  rewrite S.
  destruct (provision_anatomy s_b)
    as [(e & sf & E & Ep & Ea)
       |(s1 & p & o1 & o2 & A1 & P1 & W1 & O1 & Pop & E)].
  - left. exists e, sf. split; [exact E|]. split; [congruence|].
    exact (frame_trans _ _ (frame_adds _) _ _ _ A Ea).
  - right. exists s1, p, o1, o2.
    split; [exact (frame_trans _ _ (frame_adds _) _ _ _ A A1)|].
    split; [congruence|]. auto.
Qed.

End Anatomy2.

Section Loop.
Variable cfg : PGliteConfig.
Variable env : environ.

Lemma bind_raise_not_returned {A B} (m : M A) (e : exn) (s s' : sys) (b : B) :
  bind m (fun _ => raise e) s <> Returned b s'.
Proof. unfold bind, raise. destruct (m s); discriminate. Qed.

Lemma child_died_not_returned (p : pid) (s s' : sys) :
  child_died env p s <> Returned tt s'.
Proof.
  unfold child_died. unfold bind at 1.
  destruct (try_except _ _ s); discriminate.
Qed.

Lemma startup_timed_out_not_returned (p : pid) (s s' : sys) :
  startup_timed_out cfg env p s <> Returned tt s'.
Proof.
  unfold startup_timed_out. unfold bind at 1, gets at 1.
  unfold bind at 1.
  match goal with |- match ?x with _ => _ end <> _ => destruct x end;
    discriminate.
Qed.

(** The readiness loop returns only from a pass that found the child
    alive, the socket file in place and the handshake successful; that
    pass is the first one to try a handshake, and before it the loop
    has only slept. *)
Lemma wait_startup_returns (n : nat) (p : pid) (t0 : Z) (rl : bool) (s s' : sys) :
  wait_startup cfg env n p t0 rl s = Returned tt s' ->
  rl = false /\
  exists at_poll, adds polling s at_poll /\ untouched s at_poll /\
                  now s <= now at_poll /\ ready_at cfg env p t0 at_poll s'.
Proof.
  revert rl s. induction n as [|n IH]; intros rl s;
    rewrite wait_startup_eq; unfold bind at 1, gets at 1;
    destruct (now s - t0 <? timeout_ms cfg) eqn:Ht;
    try (intro H; now destruct (startup_timed_out_not_returned _ _ _ H));
    try discriminate.
  apply Z.ltb_lt in Ht.
  unfold bind at 1, gets at 1. destruct (exited env s p) eqn:Hx.
  { intro H. now destruct (child_died_not_returned _ _ _ H). }
  unfold bind at 1. rewrite exists_eq.
  destruct (path_exists env s (socket_path cfg)) as [[|]|e] eqn:Hs;
    [|cbn [andb]|discriminate].
  1: destruct rl; cbn [andb negb].
  - (* ready_logged already set: sleep and go on *)
    rewrite sleep_500. unfold emit, bind at 1, bind at 1, modify.
    intro H. destruct (IH _ _ H) as (D & _). discriminate D.
  - rewrite sleep_500.
    cbv beta iota delta [log emit handshake syscall bind gets modify ret].
    destruct (fst (connect env _ (socket_path cfg))) eqn:Hc.
    + intro H. injection H as <-. split; [reflexivity|].
      exists s. split; [apply (frame_refl _ _ (frame_adds _))|].
      split; [apply (frame_refl _ _ frame_untouched)|].
      split; [lia|]. repeat split; auto.
    + intro H. destruct (IH _ _ H) as (D & _). discriminate D.
  - rewrite sleep_500. unfold emit, bind at 1, bind at 1, modify.
    intro H. destruct (IH _ _ H) as (D & at_poll & A & U & T & R).
    split; [exact D|]. exists at_poll.
    split; [|split; [|split; [|exact R]]].
    + apply (frame_trans _ _ (frame_adds _) _ (advance 500 (record (EvSleep 500) s)));
        [|exact A].
      exists [EvSleep 500]. split; [reflexivity | repeat constructor].
    + destruct U as (U1 & U2 & U3 & U4). repeat split; assumption.
    + simpl in T. lia.
Qed.

End Loop.

Lemma frame_keeps_child : frame no_spawn keeps_child.
Proof.
  apply frame_both.
  - apply (frame_weaken unrestricted); [intros; exact I | apply frame_untouched].
  - apply frame_adds.
Qed.

Lemma filter_spawn_none (l : list event) :
  Forall no_spawn l -> filter is_spawn l = [].
Proof.
  induction 1 as [|e l He _ IH]; [reflexivity|].
  simpl. destruct e; simpl in *; try contradiction; exact IH.
Qed.

Lemma preparing_no_spawn (s s' : sys) : adds preparing s s' -> adds no_spawn s s'.
Proof. apply adds_weaken. intros e [H _]. exact H. Qed.

Lemma polling_no_spawn (s s' : sys) : adds polling s s' -> adds no_spawn s s'.
Proof. apply adds_weaken. intros e ->. exact I. Qed.

Section StartOutcomes.
Variable cfg : PGliteConfig.
Variable env : environ.

Lemma loop_keeps_child (n : nat) (p : pid) (t0 : Z) (rl : bool) (s : sys) :
  keeps_child s (final (wait_startup cfg env n p t0 rl s)).
Proof.
  apply (respects_wait_startup cfg env _ _ frame_keeps_child routine_no_spawn).
  right. exact I.
Qed.

(** The two ways a [start] without a handle can go: it fails before it
    spawns, or it spawns one child and keeps it. *)
Lemma start_outcomes (s : sys) :
  process s = None ->
  let sf := final (start cfg env s) in
  (process sf = None /\ filter is_spawn (since s sf) = [] /\
   exists e, start cfg env s = Raised e sf) \/
  (exists p d o1 o2,
     process sf = Some p /\ work_dir sf = Some d /\
     filter is_spawn (since s sf) = [EvSpawn p d o1 o2]).
Proof.
  intro Hp.
  destruct (start_anatomy cfg env s Hp)
    as [(e & sf & E & Ep & Ea)
       |(s1 & p & o1 & o2 & A1 & P1 & W1 & Pop & E)].
  - left. rewrite E. simpl. split; [exact Ep|]. split; [|eauto].
    destruct (preparing_no_spawn _ _ Ea) as (new & T & Hall).
    rewrite (since_app _ _ _ T). now apply filter_spawn_none.
  - right. exists p, (cwd s1), o1, o2. rewrite E.
    set (s_sp := set_process (Some p) (record (EvSpawn p (cwd s1) o1 o2) s1)).
    destruct (finally_restore env
                (wait_startup cfg env (startup_bound cfg) p (now s1) false) s_sp)
      as (Fp & Fw & _ & Ft & _).
    destruct (loop_keeps_child (startup_bound cfg) p (now s1) false s_sp)
      as ((Lp & Lw & _) & (l & Lt & Ll)).
    destruct (preparing_no_spawn _ _ A1) as (l1 & T1 & Hl1).
    split; [rewrite Fp, Lp; reflexivity|].
    split; [rewrite Fw, Lw; exact W1|].
    assert (Tb : trace (final (wait_startup cfg env (startup_bound cfg) p
                                 (now s1) false s_sp))
                 = (l ++ EvSpawn p (cwd s1) o1 o2 :: l1 ++ trace s)%list).
    { rewrite Lt. simpl. rewrite T1. reflexivity. }
    destruct Ft as [Ft|(d & Ft)]; rewrite Tb in Ft.
    + rewrite (since_app _ _ (l ++ EvSpawn p (cwd s1) o1 o2 :: l1)%list)
        by (rewrite Ft, <- app_assoc; reflexivity).
      rewrite filter_app. simpl.
      rewrite (filter_spawn_none l Ll), (filter_spawn_none l1 Hl1). reflexivity.
    + rewrite (since_app _ _ (EvChdir d :: l ++ EvSpawn p (cwd s1) o1 o2 :: l1)%list)
        by (rewrite Ft; simpl; rewrite <- app_assoc; reflexivity).
      simpl. rewrite filter_app. simpl.
      rewrite (filter_spawn_none l Ll), (filter_spawn_none l1 Hl1). reflexivity.
Qed.

(** X1. A [start] that has spawned a child holds it as its handle, whether
    it returns, raises or hangs, and has spawned no other; a [start]
    that fails before it spawns leaves no handle. *)
Theorem start_handle_is_the_spawned_child (s : sys) :
  process s = None ->
  let sf := final (start cfg env s) in
  (process sf = None /\ filter is_spawn (since s sf) = [] /\
   exists e, start cfg env s = Raised e sf) \/
  (exists p d o1 o2,
     process sf = Some p /\ work_dir sf = Some d /\
     filter is_spawn (since s sf) = [EvSpawn p d o1 o2]).
Proof. exact (start_outcomes s). Qed.

End StartOutcomes.

Section StartSucceeds.
Variable cfg : PGliteConfig.
Variable env : environ.

(** X2. [start] returns only when it is ready.  Called without a handle,
    [start] returns only after it has spawned one child ([Popen] in
    state [s1]), polled it with nothing but sleeps in between, and
    found, at one and the same poll before the timeout, the child
    alive, the socket file in place and the handshake successful.  The
    child is then the handle, and less than the timeout plus the one
    second of the handshake has passed since the spawn. *)
Theorem start_returns_only_when_ready (s s' : sys) :
  process s = None ->
  start cfg env s = Returned tt s' ->
  exists s1 p o1 o2 at_poll ready,
    adds preparing s s1 /\ popen env s1 = inl p /\
    adds polling
      (set_process (Some p) (record (EvSpawn p (cwd s1) o1 o2) s1)) at_poll /\
    ready_at cfg env p (now s1) at_poll ready /\
    process s' = Some p /\
    now s' - now s1 < timeout_ms cfg + 1000 /\
    (trace s' = trace ready \/ exists d, trace s' = EvChdir d :: trace ready).
Proof.
  intros Hp H.
  destruct (start_anatomy cfg env s Hp)
    as [(e & sf & E & _)|(s1 & p & o1 & o2 & A & P1 & W1 & Pop & E)];
    rewrite E in H; [discriminate H|].
  set (s_sp := set_process (Some p) (record (EvSpawn p (cwd s1) o1 o2) s1)) in *.
  destruct (finally_restore env
              (wait_startup cfg env (startup_bound cfg) p (now s1) false) s_sp)
    as (Fp & _ & Fn & Ft & Fr & _).
  specialize (Fr tt s' H).
  destruct (wait_startup_returns cfg env _ _ _ _ _ _ Fr)
    as (_ & at_poll & Pa & (Up & _) & _ & R).
  rewrite H, Fr in Fp, Fn, Ft. cbn [final] in Fp, Fn, Ft.
  exists s1, p, o1, o2, at_poll.
  eexists. split; [exact A|].
  split; [exact Pop|]. split; [exact Pa|]. split; [exact R|].
  destruct R as (Rt & _ & _ & _ & Re).
  split; [rewrite Fp, Re; simpl; rewrite Up; reflexivity|].
  split; [|exact Ft].
  rewrite Fn, Re. simpl. lia.
Qed.

End StartSucceeds.

Section StaleSocket.
Variable cfg : PGliteConfig.
Variable env : environ.

Lemma provision_extends (s : sys) :
  adds unrestricted s (final (provision_and_launch cfg env s)).
Proof.
  pose proof (frame_adds unrestricted) as F.
  assert (W : forall P a b, adds P a b -> adds unrestricted a b).
  { intros P a b. apply adds_weaken. intros; exact I. }
  destruct (provision_anatomy cfg env s)
    as [(e & sf & E & _ & Ea)
       |(s1 & p & o1 & o2 & A1 & _ & _ & _ & _ & E)]; rewrite E.
  - exact (W _ _ _ Ea).
  - set (s_sp := set_process (Some p) (record (EvSpawn p (cwd s1) o1 o2) s1)).
    destruct (finally_restore env
                (wait_startup cfg env (startup_bound cfg) p (now s1) false) s_sp)
      as (_ & _ & _ & Ft & _).
    destruct (loop_keeps_child cfg env (startup_bound cfg) p (now s1) false s_sp)
      as (_ & L).
    apply (frame_trans _ _ F _ s1); [exact (W _ _ _ A1)|].
    apply (frame_trans _ _ F _ s_sp).
    { exists [EvSpawn p (cwd s1) o1 o2]. split; [reflexivity | repeat constructor]. }
    apply (frame_trans _ _ F _ _ _ (W _ _ _ L)).
    destruct Ft as [Ft|(d & Ft)].
    + exists []. split; [exact Ft | constructor].
    + exists [EvChdir d]. split; [exact Ft | repeat constructor].
Qed.

(** X3. A socket file left behind is unlinked before anything is spawned.
    If the socket path exists once the conflicting processes have been
    dealt with, [start] (called without a handle) unlinks it, however
    the call goes on from there, and nothing has been spawned before
    the unlink. *)
Theorem start_unlinks_stale_socket_before_spawn (s s_a : sys) :
  process s = None ->
  _kill_existing_processes cfg env s = Returned tt s_a ->
  path_exists env s_a (socket_path cfg) = inl true ->
  exists before after,
    rev (since s (final (start cfg env s))) =
      (before ++ EvUnlink (socket_path cfg) :: after)%list /\
    filter is_spawn before = [].
Proof.
  intros Hp Hk Hx.
  pose proof (cleanup_socket_cases cfg env s_a) as C. rewrite Hx in C.
  destruct C as (s_b' & Eb' & _ & _ & U).
  destruct (start_after_cleanup cfg env s Hp)
    as (s_a' & Ea & (_ & Aa)
        & [(e & s_b & Eb & _)|(s_b & Eb & (_ & Ba) & ->)]);
    rewrite Hk in Ea; injection Ea as <-; rewrite Eb in Eb';
    [discriminate Eb'|].
  injection Eb' as <-.
  destruct (preparing_no_spawn _ _ Aa) as (lk & Tk & Hk').
  destruct (preparing_no_spawn _ _ Ba) as (lc & Tc & Hc).
  rewrite (since_app _ _ _ Tc) in U.
  destruct (provision_extends s_b) as (lr & Tr & _).
  rewrite (since_app _ _ (lr ++ lc ++ lk)%list)
    by (rewrite Tr, Tc, Tk, <- !app_assoc; reflexivity).
  rewrite !rev_app_distr.
  apply in_rev in U. destruct (in_split _ _ U) as (x1 & x2 & Sx).
  exists (rev lk ++ x1)%list, (x2 ++ rev lr)%list. split.
  - rewrite Sx, <- !app_assoc. reflexivity.
  - rewrite filter_app.
    assert (H1 : Forall no_spawn (rev lk)).
    { apply Forall_forall. intros e He. apply in_rev in He.
      exact (proj1 (Forall_forall _ _) Hk' e He). }
    assert (H2 : Forall no_spawn x1).
    { apply Forall_forall. intros e He.
      apply (proj1 (Forall_forall _ _) Hc e). apply in_rev. rewrite Sx.
      apply in_or_app. now left. }
    rewrite (filter_spawn_none _ H1), (filter_spawn_none _ H2). reflexivity.
Qed.

End StaleSocket.

(** The handle of the launcher that exits at once. *)
Lemma start_handle_is_the_spawned_child_witness :
  let sf := final (start cfg2 broken_launcher home) in
  (process sf = None /\ filter is_spawn (since home sf) = [] /\
   exists e, start cfg2 broken_launcher home = Raised e sf) \/
  (exists p d o1 o2,
     process sf = Some p /\ work_dir sf = Some d /\
     filter is_spawn (since home sf) = [EvSpawn p d o1 o2]).
Proof.
  apply (start_handle_is_the_spawned_child cfg2 broken_launcher home).
  reflexivity.
Defined.

(** The healthy launcher: ready at the first poll. *)
Lemma start_returns_only_when_ready_witness :
  exists s1 p o1 o2 at_poll ready,
    adds preparing home s1 /\ popen crash_later s1 = inl p /\
    adds polling
      (set_process (Some p) (record (EvSpawn p (cwd s1) o1 o2) s1)) at_poll /\
    ready_at cfg2 crash_later p (now s1) at_poll ready /\
    process (final (start cfg2 crash_later home)) = Some p /\
    now (final (start cfg2 crash_later home)) - now s1 < timeout_ms cfg2 + 1000 /\
    (trace (final (start cfg2 crash_later home)) = trace ready \/
     exists d, trace (final (start cfg2 crash_later home)) = EvChdir d :: trace ready).
Proof.
  apply (start_returns_only_when_ready cfg2 crash_later home).
  - reflexivity.
  - vm_compute. reflexivity.
Defined.

(** A socket file left in /tmp/py-pglite. *)
Lemma start_unlinks_stale_socket_before_spawn_witness :
  exists before after,
    rev (since home (final (start cfg2 stale_socket home))) =
      (before ++ EvUnlink (socket_path cfg2) :: after)%list /\
    filter is_spawn before = [].
Proof.
  apply (start_unlinks_stale_socket_before_spawn cfg2 stale_socket home home).
  - reflexivity.
  - reflexivity.
  - reflexivity.
Defined.

(** ** A child that exits during the readiness loop *)

Section ChildDies.
Variable cfg : PGliteConfig.
Variable env : environ.





End ChildDies.


(** A launcher that dies a second after the spawn (at time 0) is found
    dead by the third poll, after two passes that went round. *)
Example dead_at_the_third_poll (s_sp : sys) :
  now s_sp = 0 ->
  exists at_poll,
    after_passes cfg2 (dies_at 1000) 2 4242 0 false s_sp = Some (false, at_poll) /\
    now at_poll = 1000 /\ exited (dies_at 1000) at_poll 4242 = true.
Proof.
  destruct s_sp as [h wd oc t c tr]. simpl. intros ->.
  eexists. split; [vm_compute; reflexivity|]. split; reflexivity.
Qed.

(** Output that cannot be decoded: the [UnicodeDecodeError] of
    [communicate] is not caught by [except subprocess.TimeoutExpired]
    and is what [start] raises. *)
Example undecodable_output_escapes :
  exists sf,
    start cfg2 binary_output home =
      Raised (UnicodeDecodeError
                "'utf-8' codec can't decode byte 0xff in position 0: invalid start byte")
             sf.
Proof. eexists. vm_compute. reflexivity. Qed.

(** A child that exits during the last sleep of the loop is not polled
    again before the timeout: [start] raises the timeout error and does
    not read the output. *)
Example late_death_is_a_timeout :
  exists sf,
    start cfg2 (dies_at 1800) home =
      Raised (RuntimeError "PGlite server failed to start within 2 seconds") sf /\
    now sf = 2000 /\
    ~ In (EvCommunicate 4242 2000) (trace sf).
Proof.
  eexists. split; [vm_compute; reflexivity|]. split; [reflexivity|].
  simpl. intuition discriminate.
Qed.

(** ** Stopping *)

Ltac leb_facts :=
  repeat match goal with
         | H : (_ <=? _) = true |- _ => apply Z.leb_le in H
         | H : (_ <=? _) = false |- _ => apply Z.leb_gt in H
         | H : (_ <? _) = true |- _ => apply Z.ltb_lt in H
         | H : (_ <? _) = false |- _ => apply Z.ltb_ge in H
         end.

Ltac prefix_of t base :=
  match t with
  | base => constr:(@nil event)
  | ?e :: ?r => let r' := prefix_of r base in constr:(e :: r')
  end.

Ltac give_prefix :=
  match goal with
  | |- exists new, ?t = (new ++ ?base)%list /\ _ =>
      let n := prefix_of t base in exists n; split; [reflexivity|]
  end.

Section StopBounds.

Variable cfg : PGliteConfig.
Variable env : environ.

(** The shutdown sequence: it always returns, waits five seconds at most
    for the child to go after SIGTERM and two more after SIGKILL, and
    sends SIGKILL exactly when SIGTERM went out and the child was not
    reaped within the five seconds. *)
Lemma shut_down_story (p : pid) (s : sys) :
  exists s0,
    shut_down env p s = Returned tt s0 /\
    untouched s s0 /\ now s <= now s0 <= now s + 7000 /\
    exists new,
      trace s0 = (new ++ trace s)%list /\
      Forall preparing new /\
      (In (EvKill p) new <->
       send_signal env
         (record (EvLog DEBUG "Sending SIGTERM to PGlite process...") s) p = None /\
       outlives env p 5000 (asked_to_stop p s) = true).
Proof.
  unfold outlives, asked_to_stop, shut_down, try_except, terminate, kill, wait,
    syscall, log, emit, bind, gets, modify, ret, raise, raise_if.
  simpl.
  repeat (split_oracle; simpl);
    eexists; (split; [reflexivity|]); simpl;
    (split; [repeat split|]);
    (split; [leb_facts; lia|]);
    give_prefix;
    (split; [repeat constructor; intros ? ? ? ?; discriminate|]).
  all: simpl; split; intro H;
    repeat match goal with
           | H : _ \/ _ |- _ => destruct H
           | H : _ /\ _ |- _ => destruct H
           | H : False |- _ => destruct H
           end;
    try discriminate; try (leb_facts; lia); auto 8.
  all: try (split; [reflexivity|]); try (apply Z.ltb_lt; leb_facts; lia).
Qed.


(** Socket hygiene takes no time and touches nothing; what it records
    is log records and the removal of the configured path, and nothing
    at all when the path is not there.  It raises only what [exists()]
    raises, and then has done nothing. *)
Lemma cleanup_socket_story (s : sys) :
  exists s',
    (_cleanup_socket cfg env s = Returned tt s' \/
     exists e, path_exists env s (socket_path cfg) = inr e /\
               _cleanup_socket cfg env s = Raised e s' /\ s' = s) /\
    untouched s s' /\ now s' = now s /\
    adds (tidies (socket_path cfg)) s s' /\
    (path_exists env s (socket_path cfg) = inl false -> s' = s).
Proof.
  remember (_cleanup_socket cfg env s) as o eqn:Eo.
  unfold _cleanup_socket in Eo. unfold bind at 1 in Eo. rewrite exists_eq in Eo.
  destruct (path_exists env s (socket_path cfg)) as [[|]|e]; subst o.
  - unfold try_except, syscall, log, emit, bind, gets, modify, ret, raise,
      raise_if, tidies.
    destruct (unlink env s (socket_path cfg)); simpl;
      eexists; (split; [left; reflexivity|]); simpl;
      (split; [repeat split|]); (split; [reflexivity|]);
      (split; [|discriminate]);
      (eexists [_; _]; split; [reflexivity|]);
      (apply Forall_cons; [left; reflexivity|]);
      (apply Forall_cons; [right; reflexivity | apply Forall_nil]).
  - exists s. split; [left; reflexivity|].
    split; [repeat split|]. split; [reflexivity|]. split; [|reflexivity].
    exists []. split; [reflexivity|constructor].
  - exists s. split; [right; exists e; auto|].
    split; [repeat split|]. split; [reflexivity|]. split; [|discriminate].
    exists []. split; [reflexivity|constructor].
Qed.

Lemma tidies_preparing (path : string) (e : event) : tidies path e -> preparing e.
Proof.
  intros [H | ->]; [|split; [exact I | reflexivity]].
  destruct e; try discriminate H. split; [exact I | reflexivity].
Qed.

(** What [stop] does with a handle: the shutdown sequence, then the handle
    is dropped, then the socket is tidied up when the configuration asks
    for it.  The one exception [stop] can raise is that of the
    [exists()] call of the cleanup. *)
Lemma stop_story (p : pid) (s : sys) :
  process s = Some p ->
  exists s0 s',
    shut_down env p s = Returned tt s0 /\
    (stop cfg env s = Returned tt s' \/
     (cleanup_on_exit cfg = true /\
      exists e,
        path_exists env (set_process None s0) (socket_path cfg) = inr e /\
        stop cfg env s = Raised e s')) /\
    process s' = None /\ work_dir s' = work_dir s /\
    _original_cwd s' = _original_cwd s /\ cwd s' = cwd s /\
    now s' = now s0 /\
    adds (tidies (socket_path cfg)) s0 s'.
Proof.
  intro Hp.
  destruct (shut_down_story p s) as (s0 & E & (Up & Uw & Uo & Uc) & T & _).
  exists s0.
  assert (S : stop cfg env s =
              (if cleanup_on_exit cfg
               then bind (_cleanup_socket cfg env) (fun _ => ret tt)
               else ret tt) (set_process None s0)).
  { unfold stop. unfold bind at 1, gets at 1. rewrite Hp.
    unfold try_finally. rewrite E.
    unfold bind at 1. unfold bind at 1, modify at 1.
    destruct (cleanup_on_exit cfg); reflexivity. }
  rewrite S. clear S.
  destruct (cleanup_on_exit cfg).
  - destruct (cleanup_socket_story (set_process None s0))
      as (s' & [E'|(e & Ee & E' & ->)] & (Kp & Kw & Ko & Kc) & Kt & Ka & _);
      unfold bind; rewrite E'.
    + exists s'. simpl in *. split; [exact E|]. split; [left; reflexivity|].
      repeat split; try congruence. exact Ka.
    + exists (set_process None s0). simpl in *. split; [exact E|].
      split; [right; split; [reflexivity|]; exists e; auto|].
      repeat split; try congruence. exact Ka.
  - exists (set_process None s0). simpl. split; [exact E|].
    split; [left; reflexivity|].
    repeat split; try congruence.
    exists []. split; [reflexivity | constructor].
Qed.

(** However [stop] ends, the handle is gone. *)
Lemma stop_clears_handle (s : sys) :
  process (final (stop cfg env s)) = None /\
  (exists s', stop cfg env s = Returned tt s') \/
  process (final (stop cfg env s)) = None /\
  (exists e s', stop cfg env s = Raised e s').
Proof.
  destruct (process s) as [p|] eqn:Hp.
  - destruct (stop_story p s Hp)
      as (s0 & s' & _ & [E|(_ & e & _ & E)] & P & _); rewrite E; simpl; eauto.
  - left. unfold stop, bind, gets. rewrite Hp. simpl. eauto.
Qed.

(** X4. [stop] never takes long: whatever the child and the operating
    system do, it comes back after at most seven seconds of waiting
    (five for the graceful exit, two after the forced kill), with the
    handle gone and the rest of the manager and the working directory as
    they were.  Nothing is spawned and no handshake is attempted on the
    way.  It comes back by returning, except in one case: with
    [cleanup_on_exit] set, an exception of the [exists()] call on the
    socket path is raised to the caller. *)
Theorem stop_waits_at_most_seven_seconds (s : sys) :
  exists s',
    (stop cfg env s = Returned tt s' \/
     (cleanup_on_exit cfg = true /\
      exists st e,
        path_exists env st (socket_path cfg) = inr e /\
        stop cfg env s = Raised e s')) /\
    now s <= now s' <= now s + 7000 /\
    process s' = None /\ work_dir s' = work_dir s /\
    _original_cwd s' = _original_cwd s /\ cwd s' = cwd s /\
    adds preparing s s'.
Proof.
  destruct (process s) as [p|] eqn:Hp.
  - destruct (stop_story p s Hp) as (s0 & s' & E0 & E & P & W & O & C & N & A).
    destruct (shut_down_story p s) as (s0' & E0' & _ & T & new & Tr & F & _).
    rewrite E0 in E0'. injection E0' as <-.
    exists s'. rewrite N. split.
    { destruct E as [E|(Hc & e & Ee & E)]; [left; exact E|].
      right. split; [exact Hc|]. eauto. }
    repeat split; auto; try lia.
    apply (frame_trans _ _ (frame_adds preparing) s s0 s').
    + exists new. split; assumption.
    + eapply adds_weaken; [|exact A]. apply tidies_preparing.
  - exists s. unfold stop, bind, gets. rewrite Hp. simpl.
    split; [left; reflexivity|].
    repeat split; auto; try lia.
    exists []. split; [reflexivity | constructor].
Qed.

(** X5. A stopped manager is inert: in the state [stop] leaves behind,
    whether it returned or raised, [is_running] answers [False] without
    consulting the operating system, each of the three accessors raises
    the not-running error, and a further [stop] returns at once and
    does nothing at all. *)
Theorem stopped_manager_is_inert (fmt : ConfigFormat) (s : sys) :
  let s' := final (stop cfg env s) in
  is_running env s' = Returned false s' /\
  get_connection_string cfg env fmt s' = Raised not_running s' /\
  get_dsn cfg env fmt s' = Raised not_running s' /\
  get_psycopg_uri cfg env fmt s' = Raised not_running s' /\
  stop cfg env s' = Returned tt s'.
Proof.
  assert (P : process (final (stop cfg env s)) = None)
    by (destruct (stop_clears_handle s) as [(P & _)|(P & _)]; exact P).
  cbv zeta. remember (final (stop cfg env s)) as s' eqn:Es. clear Es.
  unfold get_connection_string, get_dsn, get_psycopg_uri, is_running, stop,
    bind, gets, raise, ret.
  rewrite P. repeat split.
Qed.

(** X6. [stop] escalates only when it has to: SIGKILL is sent to the child
    exactly when SIGTERM could be delivered and the child was not reaped
    within the five seconds that follow. *)
Theorem stop_kills_only_after_a_failed_graceful_wait (p : pid) (s : sys) :
  process s = Some p ->
  In (EvKill p) (since s (final (stop cfg env s))) <->
  send_signal env
    (record (EvLog DEBUG "Sending SIGTERM to PGlite process...") s) p = None /\
  outlives env p 5000 (asked_to_stop p s) = true.
Proof.
  intro Hp.
  destruct (stop_story p s Hp) as (s0 & s' & E0 & E & _ & _ & _ & _ & _ & A).
  destruct (shut_down_story p s) as (s0' & E0' & _ & _ & new & Tr & _ & K).
  rewrite E0 in E0'. injection E0' as <-.
  assert (Ef : final (stop cfg env s) = s')
    by (destruct E as [E|(_ & e & _ & E)]; rewrite E; reflexivity).
  rewrite Ef.
  destruct A as (tail & Tt & Ft).
  rewrite (since_app s s' (tail ++ new)%list)
    by (rewrite Tt, Tr; apply app_assoc).
  rewrite <- K, in_app_iff. split; [|auto].
  intros [H | H]; [|exact H].
  destruct (proj1 (Forall_forall _ _) Ft _ H) as [L | L]; discriminate L.
Qed.

End StopBounds.

Lemma stop_kills_only_after_a_failed_graceful_wait_witness :
  In (EvKill 7)
     (since (set_process (Some 7) home)
        (final (stop cfg2 stuck_child (set_process (Some 7) home)))) <->
  send_signal stuck_child
    (record (EvLog DEBUG "Sending SIGTERM to PGlite process...")
       (set_process (Some 7) home)) 7 = None /\
  outlives stuck_child 7 5000 (asked_to_stop 7 (set_process (Some 7) home)) = true.
Proof.
  apply (stop_kills_only_after_a_failed_graceful_wait cfg2 stuck_child 7
           (set_process (Some 7) home)).
  reflexivity.
Defined.

(** ** Conflict reclamation *)

Lemma for_each_app {A} (body : A -> M unit) (l1 l2 : list A) (s : sys) :
  for_each body (l1 ++ l2) s =
  match for_each body l1 s with
  | Returned _ s1 => for_each body l2 s1
  | o => o
  end.
Proof.
  revert s. induction l1 as [|x l1 IH]; intro s; simpl; [reflexivity|].
  unfold bind. destruct (body x s); auto.
Qed.

Section Reclamation.

Variable cfg : PGliteConfig.
Variable env : environ.

Let dir : string := my_socket_dir cfg env.

Lemma reclaims_more (t1 t2 : list proc_info) (e : event) :
  (forall q, In q t1 -> In q t2) -> reclaims t1 dir e -> reclaims t2 dir e.
Proof.
  intros H. destruct e; simpl; auto; intros (q & I & E & C); exists q; auto.
Qed.

(** One process of the table: what is recorded for it is a kill and a
    wait for itself, and only when it passes both tests. *)
Lemma reap_one_reclaims (table : list proc_info) (q : proc_info) :
  In q table -> respects (adds (reclaims table dir)) (reap_one env dir q).
Proof.
  intro I. pose proof (frame_adds (reclaims table dir)) as F.
  assert (K : conflicts dir q = true -> forall e,
                e = EvPsKill (pi_pid q) \/ e = EvPsWait (pi_pid q) 5000 ->
                reclaims table dir e).
  { intros C e [-> | ->]; exists q; auto. }
  unfold reap_one, dir_conflict, log.
  unfold conflicts, contained_either_way in K.
  destruct (names_launcher q); [|walk F].
  destruct (pi_cwd q) as [c|]; [|walk F].
  destruct (str_in dir c || str_in c dir)%bool;
    walk F; try exact Logic.I; apply K; auto.
Qed.

Lemma scan_reclaims (table : list proc_info) :
  respects (adds (reclaims table dir)) (for_each (reap_one env dir) table).
Proof.
  apply (respects_for_each _ _ (frame_adds _)).
  intros q I. now apply reap_one_reclaims.
Qed.


(** X7. Conflict reclamation never raises and never touches the manager,
    and it is sound: whatever psutil reports and however its calls fail,
    the only processes killed (or waited for) are entries of the process
    table whose command line names the launcher and whose working
    directory passes the containment test against the socket directory. *)
Theorem reclamation_kills_only_conflicting_launchers (s : sys) :
  exists s',
    _kill_existing_processes cfg env s = Returned tt s' /\
    untouched s s' /\
    adds (reclaims (process_iter env s) (my_socket_dir cfg env)) s s'.
Proof.
  destruct (quiet_returns _ s (kill_existing_quiet cfg env)) as ([] & s' & E).
  exists s'. split; [exact E|]. split.
  - pose proof (respects_kill_existing cfg env _ _ frame_untouched
                  unrestricted_any s) as U.
    now rewrite E in U.
  - set (table := process_iter env s).
    assert (R : respects (adds (reclaims table dir))
                  (try_except (for_each (reap_one env dir) table)
                     (fun e => Some (log WARNING
                        ("Error killing existing PGlite processes: " ++
                         exn_message e))))).
    { apply (respects_try_except _ _ (frame_adds _)); [apply scan_reclaims|].
      intros e k K. injection K as <-.
      apply (respects_emit _ _ (frame_adds _)). exact I. }
    specialize (R s).
    change (try_except (for_each (reap_one env dir) table) _ s)
      with (_kill_existing_processes cfg env s) in R.
    now rewrite E in R.
Qed.

(** With a readable working directory and psutil calls that fail in the
    tolerated ways only, a table entry never stops the scan, and is
    killed when it passes both tests. *)
Lemma reap_one_benign (q : proc_info) (s : sys) :
  (names_launcher q = true -> pi_cwd q <> None) ->
  (forall st victim, tolerated (ps_kill env st victim) = true) ->
  (forall st victim, tolerated (ps_wait env st victim) = true) ->
  exists s' new,
    reap_one env dir q s = Returned tt s' /\
    trace s' = (new ++ trace s)%list /\
    (conflicts dir q = true -> In (EvPsKill (pi_pid q)) new).
Proof.
  intros Hc Hk Hw. unfold conflicts, contained_either_way, reap_one, dir_conflict.
  destruct (names_launcher q).
  2:{ exists s, []. repeat split. discriminate. }
  destruct (pi_cwd q) as [c|]; [|now destruct Hc].
  unfold try_except, syscall, log, emit, bind, gets, modify, ret, raise, raise_if.
  simpl. destruct (str_in dir c || str_in c dir)%bool; simpl.
  2:{ exists s, []. repeat split. discriminate. }
  match goal with
  | |- context [ps_kill env ?st ?v] =>
      pose proof (Hk st v) as K; destruct (ps_kill env st v) as [[]|]
  end; simpl in K |- *; try discriminate K;
    try (eexists; eexists [_; _]; repeat split; simpl; auto; fail).
  match goal with
  | |- context [ps_wait env ?st ?v] =>
      pose proof (Hw st v) as W; destruct (ps_wait env st v) as [[]|]
  end; simpl in W |- *; try discriminate W;
    eexists; eexists [_; _; _]; repeat split; simpl; auto.
Qed.

Lemma scan_benign (table : list proc_info) (s : sys) :
  (forall q, In q table -> names_launcher q = true -> pi_cwd q <> None) ->
  (forall st victim, tolerated (ps_kill env st victim) = true) ->
  (forall st victim, tolerated (ps_wait env st victim) = true) ->
  exists s' new,
    for_each (reap_one env dir) table s = Returned tt s' /\
    trace s' = (new ++ trace s)%list /\
    (forall q, In q table -> conflicts dir q = true ->
               In (EvPsKill (pi_pid q)) new).
Proof.
  intros Hc Hk Hw. revert s.
  induction table as [|q table IH]; intro s.
  - exists s, []. repeat split. intros q [].
  - destruct (reap_one_benign q s (Hc q (or_introl eq_refl)) Hk Hw)
      as (s1 & n1 & E1 & T1 & K1).
    destruct (IH (fun x Hx => Hc x (or_intror Hx)) s1) as (s2 & n2 & E2 & T2 & K2).
    exists s2, (n2 ++ n1)%list. simpl. unfold bind. rewrite E1.
    split; [exact E2|]. split.
    + rewrite T2, T1. apply app_assoc.
    + intros x [<- | Hx] C; apply in_or_app; [right | left]; auto.
Qed.

(** X8. Conflict reclamation is complete when nothing gets in its way:
    if every launcher process of the table has a readable working
    directory and psutil's kill and wait fail only with NoSuchProcess or
    AccessDenied, then every table entry that names the launcher and
    passes the containment test is killed, and no warning is logged. *)
Theorem reclamation_kills_every_conflicting_launcher (s : sys) (q : proc_info) :
  (forall x, In x (process_iter env s) ->
             names_launcher x = true -> pi_cwd x <> None) ->
  (forall st victim, tolerated (ps_kill env st victim) = true) ->
  (forall st victim, tolerated (ps_wait env st victim) = true) ->
  In q (process_iter env s) ->
  conflicts (my_socket_dir cfg env) q = true ->
  In (EvPsKill (pi_pid q))
     (since s (final (_kill_existing_processes cfg env s))).
Proof.
  intros Hc Hk Hw I C.
  destruct (scan_benign (process_iter env s) s Hc Hk Hw) as (s' & new & E & T & K).
  assert (E' : _kill_existing_processes cfg env s = Returned tt s').
  { unfold _kill_existing_processes, try_except.
    unfold bind at 1, gets at 1. fold dir. now rewrite E. }
  rewrite E'. cbn [final]. rewrite (since_app _ _ _ T). now apply K.
Qed.

(** X9. A launcher process whose working directory psutil cannot read
    ends the scan: the [in] test on [None] is a TypeError, which only the
    outer handler catches.  A warning is logged, the entries listed after
    it are never examined, and only entries listed before it can have been
    killed. *)
Theorem reclamation_stops_at_an_unreadable_cwd
    (s : sys) (before after : list proc_info) (q : proc_info) :
  process_iter env s = (before ++ q :: after)%list ->
  names_launcher q = true ->
  pi_cwd q = None ->
  exists s1 x,
    adds (reclaims before (my_socket_dir cfg env)) s s1 /\
    _kill_existing_processes cfg env s =
      Returned tt
        (record (EvLog WARNING ("Error killing existing PGlite processes: " ++
                                exn_message x)) s1).
Proof.
  intros Ht Hn Hc.
  pose proof (scan_reclaims before s) as A.
  assert (B : within back (for_each (reap_one env dir) before)).
  { apply within_for_each; [reflexivity|]. intro p. apply reap_one_back. }
  unfold _kill_existing_processes, try_except.
  unfold bind at 1, gets at 1. rewrite Ht. fold dir.
  rewrite for_each_app.
  destruct (back_cases _ s B) as [([] & s1 & E) | (x & s1 & E)];
    rewrite E in A |- *; cbn [final] in A.
  - exists s1, (TypeError "argument of type 'NoneType' is not iterable").
    split; [exact A|].
    simpl. unfold bind, reap_one, dir_conflict, try_except. rewrite Hn, Hc.
    reflexivity.
  - exists s1, x. split; [exact A | reflexivity].
Qed.

End Reclamation.

Lemma reclamation_kills_every_conflicting_launcher_witness :
  In (EvPsKill 777)
     (since home (final (_kill_existing_processes cfg_a shared_tmp home))).
Proof.
  apply (reclamation_kills_every_conflicting_launcher cfg_a shared_tmp home child_b).
  - intros x [<- | [<- | []]] _; discriminate.
  - reflexivity.
  - reflexivity.
  - left. reflexivity.
  - reflexivity.
Defined.

Lemma reclamation_stops_at_an_unreadable_cwd_witness :
  exists s1 x,
    adds (reclaims [child_far] (my_socket_dir cfg_a mixed_table)) home s1 /\
    _kill_existing_processes cfg_a mixed_table home =
      Returned tt
        (record (EvLog WARNING ("Error killing existing PGlite processes: " ++
                                exn_message x)) s1).
Proof.
  apply (reclamation_stops_at_an_unreadable_cwd cfg_a mixed_table home
           [child_far] [child_b] foreign_launcher); reflexivity.
Defined.

(** ** Readiness with arguments out of range *)

Ltac read_actions :=
  match goal with
  | |- actions ?s ?s' = _ =>
      let t := eval simpl in (trace s') in
      let n := prefix_of t (trace s) in
      rewrite (actions_since s s' n) by reflexivity; reflexivity
  end.

Section ReadinessEdges.

Variable cfg : PGliteConfig.
Variable env : environ.
Variable fmt : ConfigFormat.

Let dsn : string := config_get_dsn fmt cfg.

(** A delay [time.sleep] refuses: too long in either direction for its
    clock, or else negative. *)
Lemma sleep_refuses (delay : Z) :
  delay < 0 \/ sleep_max < delay ->
  sleep_error delay =
    Some (if (delay <? - sleep_max) || (sleep_max <? delay)
          then OverflowError "timestamp too large to convert to C _PyTime_t"
          else ValueError "sleep length must be non-negative").
Proof.
  intro H. unfold sleep_error.
  destruct ((delay <? - sleep_max) || (sleep_max <? delay)) eqn:E; [reflexivity|].
  apply orb_false_elim in E. destruct E as [_ E]. apply Z.ltb_ge in E.
  replace (delay <? 0) with true by (symmetry; apply Z.ltb_lt; lia).
  reflexivity.
Qed.

(** X10. [wait_for_ready] outside the range of its arguments.  With
    [max_retries <= 0] it returns [False] at once: no probe, no log
    record, no pause.  With a delay that [time.sleep] refuses (negative,
    or longer than [sleep_max]) it makes one probe only: it returns
    [True] when that probe succeeds, [False] when the probe fails and
    [max_retries] is 1 (the delay is not used then), and otherwise
    raises the exception of [time.sleep]: [OverflowError] for a delay
    beyond [sleep_max] in either direction, [ValueError] for the other
    negative ones.  The failure of the probe itself, exception or not,
    is never what is raised. *)
Theorem wait_for_ready_out_of_range (max_retries delay : Z) (s : sys) :
  max_retries <= 0 \/ delay < 0 \/ sleep_max < delay ->
  exists s',
    actions s s' =
      (if max_retries <=? 0 then []
       else EvProbe dsn (probe_succeeds env dsn s) ::
            (if probe_succeeds env dsn s then [EvSleep 200] else [])) /\
    wait_for_ready cfg env fmt max_retries delay s =
      (if max_retries <=? 0 then Returned false s'
       else if probe_succeeds env dsn s then Returned true s'
       else if max_retries =? 1 then Returned false s'
       else Raised
              (if (delay <? - sleep_max) || (sleep_max <? delay)
               then OverflowError "timestamp too large to convert to C _PyTime_t"
               else ValueError "sleep length must be non-negative") s') /\
    (max_retries <= 0 -> s' = s).
Proof.
  intro H. unfold wait_for_ready, wait_for_ready_basic, py_range.
  destruct (max_retries <=? 0) eqn:M.
  - apply Z.leb_le in M. exists s.
    replace (Z.to_nat max_retries) with 0%nat by lia.
    split; [|split; reflexivity].
    apply (actions_since s s []). reflexivity.
  - apply Z.leb_gt in M. destruct H as [H | H]; [lia|].
    destruct (Z.to_nat max_retries) as [|n] eqn:En; [lia|].
    cbn [seq map attempts]. unfold bind at 1.
    unfold sleep at 1. rewrite (sleep_refuses delay H).
    unfold attempt_once, try_except, sleep, log, emit, bind, gets, modify, ret,
      raise, probe_succeeds.
    fold dsn. change (Z.of_nat 0) with 0.
    destruct (check_connection env s dsn) as [[|]|e]; simpl.
    + eexists. split; [|split; [reflexivity | intro; lia]].
      read_actions.
    + destruct (max_retries =? 1) eqn:M1.
      * apply Z.eqb_eq in M1.
        replace (0 <? max_retries - 1) with false by (symmetry; apply Z.ltb_ge; lia).
        assert (n = 0%nat) as -> by lia. simpl.
        eexists. split; [|split; [reflexivity | intro; lia]].
        read_actions.
      * apply Z.eqb_neq in M1.
        replace (0 <? max_retries - 1) with true by (symmetry; apply Z.ltb_lt; lia).
        simpl. eexists. split; [|split; [reflexivity | intro; lia]].
        read_actions.
    + destruct (max_retries =? 1) eqn:M1.
      * apply Z.eqb_eq in M1.
        replace (0 <? max_retries - 1) with false by (symmetry; apply Z.ltb_ge; lia).
        assert (n = 0%nat) as -> by lia. simpl.
        eexists. split; [|split; [reflexivity | intro; lia]].
        read_actions.
      * apply Z.eqb_neq in M1.
        replace (0 <? max_retries - 1) with true by (symmetry; apply Z.ltb_lt; lia).
        simpl. eexists. split; [|split; [reflexivity | intro; lia]].
        read_actions.
Qed.

End ReadinessEdges.

(** A delay of minus three hundred years, against a database that is
    down. *)
Lemma wait_for_ready_out_of_range_witness :
  exists s',
    actions home s' =
      (if 15 <=? 0 then []
       else EvProbe (config_get_dsn host_format cfg2)
              (probe_succeeds db_down (config_get_dsn host_format cfg2) home) ::
            (if probe_succeeds db_down (config_get_dsn host_format cfg2) home
             then [EvSleep 200] else [])) /\
    wait_for_ready cfg2 db_down host_format 15 (-9467280000000) home =
      (if 15 <=? 0 then Returned false s'
       else if probe_succeeds db_down (config_get_dsn host_format cfg2) home
            then Returned true s'
       else if 15 =? 1 then Returned false s'
       else Raised
              (if (-9467280000000 <? - sleep_max) || (sleep_max <? -9467280000000)
               then OverflowError "timestamp too large to convert to C _PyTime_t"
               else ValueError "sleep length must be non-negative") s') /\
    (15 <= 0 -> s' = home).
Proof.
  apply (wait_for_ready_out_of_range cfg2 db_down host_format 15
           (-9467280000000) home).
  right. left. lia.
Defined.

(** ** The timeout branch *)

Section TimesOut.

Variable cfg : PGliteConfig.
Variable env : environ.

Hypothesis stays_up : forall st p, exited env st p = false.
Hypothesis never_accepts : forall st, fst (connect env st (socket_path cfg)) = false.
(** [exists()] on the socket path answers, one way or the other. *)
Hypothesis exists_answers :
  forall st, exists b, path_exists env st (socket_path cfg) = inl b.

(** With a child that stays up and a socket that never accepts, the
    loop does nothing but wait, and reaches its [else] branch once the
    timeout has passed, at most a handshake and a sleep late. *)
Lemma loop_runs_out (p : pid) (t0 : Z) (n : nat) :
  forall (rl : bool) (s : sys),
    (Z.to_nat (timeout_ms cfg - (now s - t0)) < n)%nat ->
    exists s_t,
      wait_startup cfg env n p t0 rl s = startup_timed_out cfg env p s_t /\
      untouched s s_t /\ adds (waiting (socket_path cfg)) s s_t /\
      timeout_ms cfg <= now s_t - t0 <= Z.max (now s - t0) (timeout_ms cfg + 1499).
Proof.
  induction n as [|n IH]; intros rl s Hn; [lia|].
  rewrite wait_startup_eq. unfold bind at 1, gets at 1.
  destruct (now s - t0 <? timeout_ms cfg) eqn:Ht.
  2:{ apply Z.ltb_ge in Ht. exists s. split; [reflexivity|].
      split; [apply (frame_refl _ _ frame_untouched)|].
      split; [apply (frame_refl _ _ (frame_adds _))|]. lia. }
  apply Z.ltb_lt in Ht.
  unfold bind at 1, gets at 1. rewrite stays_up.
  unfold bind at 1. rewrite exists_eq.
  destruct (exists_answers s) as (present & ->).
  rewrite !sleep_500.
  destruct (present && negb rl)%bool.
  - cbv beta iota delta [log emit handshake syscall bind gets modify ret].
    rewrite never_accepts.
    match goal with
    | |- context [wait_startup cfg env n p t0 true ?st] =>
        destruct (IH true st) as (s_t & E & (Up & Uw & Uo & Uc) & (l & Tl & Fl) & T);
          [simpl; lia|]
    end.
    exists s_t. split; [exact E|].
    split; [repeat split; assumption|].
    split; [|simpl in T; lia].
    eexists (l ++ [_; _; _])%list. split.
    + rewrite Tl. simpl. rewrite <- app_assoc. reflexivity.
    + apply Forall_app. split; [exact Fl|].
      repeat (apply Forall_cons || apply Forall_nil); unfold waiting; auto.
  - cbv beta iota delta [emit bind modify].
    match goal with
    | |- context [wait_startup cfg env n p t0 rl ?st] =>
        destruct (IH rl st) as (s_t & E & (Up & Uw & Uo & Uc) & (l & Tl & Fl) & T);
          [simpl; lia|]
    end.
    exists s_t. split; [exact E|].
    split; [repeat split; assumption|].
    split; [|simpl in T; lia].
    eexists (l ++ [_])%list. split.
    + rewrite Tl. simpl. rewrite <- app_assoc. reflexivity.
    + apply Forall_app. split; [exact Fl|].
      repeat (apply Forall_cons || apply Forall_nil). left. reflexivity.
Qed.

Hypothesis signals_go_out : forall st p, send_signal env st p = None.
Hypothesis goes_on_sigterm :
  forall st p, exists d, exits_in env st p = Some d /\ d <= 5000.
(** The directory [start] was called in can be entered again. *)
Hypothesis way_back : forall st d, chdir_error env st d = None.

(** The [else] branch with a child that goes on SIGTERM: one warning,
    the signal, one wait of five seconds at most, and the timeout
    error. *)
Lemma timed_out_gently (p : pid) (s : sys) :
  exists sf,
    startup_timed_out cfg env p s = Raised (RuntimeError (timeout_message cfg)) sf /\
    untouched s sf /\ trace sf = given_up p (trace s) /\
    now s <= now sf <= now s + 5000.
Proof.
  unfold startup_timed_out, try_except, terminate, wait, syscall, log, emit,
    bind, gets, modify, ret, raise, raise_if.
  rewrite stays_up. simpl. rewrite signals_go_out. simpl.
  match goal with
  | |- context [exits_in env ?st p] =>
      destruct (goes_on_sigterm st p) as (d & -> & Hd)
  end.
  replace (d <=? 5000) with true by (symmetry; apply Z.leb_le; lia).
  simpl. eexists. split; [reflexivity|]. simpl.
  split; [repeat split|]. split; [reflexivity | lia].
Qed.


(** X11. A launcher that never becomes ready.  If the child stays up,
    no handshake with the socket ever succeeds, signals can be sent and
    the child goes within five seconds of SIGTERM (and the [exists()]
    and [os.chdir] calls of the run do not fail), then a [start] that
    gets as far as spawning raises the timeout error: not before the
    timeout has passed since the spawn and at most 6.5 seconds after it
    (a handshake of one second, a sleep of half a second, the wait of
    five).  The last things it does are the warning, the SIGTERM and the
    wait (and the return to the caller's directory): no SIGKILL follows.
    The child is still the handle. *)
Theorem start_times_out_when_never_ready (s : sys) :
  process s = None ->
  0 <= timeout cfg ->
  let sf := final (start cfg env s) in
  (exists e,
     start cfg env s = Raised e sf /\ process sf = None /\
     filter is_spawn (since s sf) = []) \/
  (exists s1 p s_t,
     popen env s1 = inl p /\
     start cfg env s = Raised (RuntimeError (timeout_message cfg)) sf /\
     process sf = Some p /\
     timeout_ms cfg <= now sf - now s1 <= timeout_ms cfg + 6499 /\
     (trace sf = given_up p (trace s_t) \/
      exists d, trace sf = EvChdir d :: given_up p (trace s_t))).
Proof.
  intros Hp Ht.
  destruct (start_anatomy cfg env s Hp)
    as [(e & sf & E & Ep & Ea)
       |(s1 & p & o1 & o2 & A1 & P1 & W1 & Pop & E)]; rewrite E.
  - left. exists e. cbn [final]. split; [reflexivity|]. split; [exact Ep|].
    destruct (preparing_no_spawn _ _ Ea) as (new & T & Hall).
    rewrite (since_app _ _ _ T). now apply filter_spawn_none.
  - right.
    set (s_sp := set_process (Some p) (record (EvSpawn p (cwd s1) o1 o2) s1)).
    destruct (loop_runs_out p (now s1) (startup_bound cfg) false s_sp)
      as (s_t & El & (Lp & _) & _ & Tl).
    { unfold startup_bound. simpl. lia. }
    destruct (timed_out_gently p s_t) as (s_r & Er & (Rp & _) & Rt & Rn).
    destruct (restore_cwd_cases env s_r)
      as (sf & [Ef|(x & d & Ec & _)] & Fp & _ & Fn & Ft);
      [|rewrite way_back in Ec; discriminate Ec].
    assert (EQ : try_finally
                   (wait_startup cfg env (startup_bound cfg) p (now s1) false)
                   (restore_cwd env) s_sp
                 = Raised (RuntimeError (timeout_message cfg)) sf).
    { unfold try_finally. rewrite El, Er. unfold bind. rewrite Ef. reflexivity. }
    rewrite EQ. cbn [final]. exists s1, p, s_t.
    split; [exact Pop|]. split; [reflexivity|].
    split; [rewrite Fp, Rp, Lp; reflexivity|].
    split.
    + rewrite Fn. simpl in Tl. unfold timeout_ms in *. lia.
    + rewrite <- Rt. exact Ft.
Qed.

End TimesOut.

Lemma start_times_out_when_never_ready_witness :
  let sf := final (start cfg2 never_binds home) in
  (exists e,
     start cfg2 never_binds home = Raised e sf /\ process sf = None /\
     filter is_spawn (since home sf) = []) \/
  (exists s1 p s_t,
     popen never_binds s1 = inl p /\
     start cfg2 never_binds home = Raised (RuntimeError (timeout_message cfg2)) sf /\
     process sf = Some p /\
     timeout_ms cfg2 <= now sf - now s1 <= timeout_ms cfg2 + 6499 /\
     (trace sf = given_up p (trace s_t) \/
      exists d, trace sf = EvChdir d :: given_up p (trace s_t))).
Proof.
  apply (start_times_out_when_never_ready cfg2 never_binds).
  - reflexivity.
  - reflexivity.
  - intro st. exists false. reflexivity.
  - reflexivity.
  - intros st p. exists 0. split; [reflexivity | lia].
  - reflexivity.
  - reflexivity.
  - simpl. lia.
Defined.

(** ** A timeout that leaves no time *)

Section NoTime.

Variable cfg : PGliteConfig.
Variable env : environ.

Lemma no_connect_give_up (p : pid) :
  respects (adds no_connect) (startup_timed_out cfg env p).
Proof.
  apply (respects_startup_timed_out cfg env _ _ (frame_adds no_connect)
           routine_no_connect).
Qed.

(** The timeout branch neither sleeps, nor tries a handshake, nor reads
    the output of the child. *)
Lemma idle_give_up (p : pid) (s : sys) :
  adds idle s (final (startup_timed_out cfg env p s)).
Proof.
  unfold adds, startup_timed_out, try_except, terminate, kill, wait, syscall,
    log, emit, bind, gets, modify, ret, raise, raise_if.
  destruct (exited env s p); simpl;
    repeat (split_oracle; simpl);
    give_prefix; repeat constructor.
Qed.

(** X12. A timeout of zero (or less) leaves [start] no time at all: the
    [while] condition is false on entry.  A [start] without a handle
    then never returns normally and never attempts a handshake.  If it
    gets as far as spawning, it goes from the spawn straight to the
    timeout branch: what is left of [start] is that branch under the
    [finally] clause, in which nothing sleeps, nothing tries a handshake
    and nothing reads the output of the child; and a child that has
    exited already is reported by the timeout error, not by the error
    for a child that died. *)
Theorem start_with_no_time_never_succeeds (s : sys) :
  process s = None ->
  timeout cfg <= 0 ->
  let sf := final (start cfg env s) in
  (forall s', start cfg env s <> Returned tt s') /\
  filter is_connect (since s sf) = [] /\
  ((exists e,
      start cfg env s = Raised e sf /\ process sf = None /\
      filter is_spawn (since s sf) = []) \/
   (exists s1 p o1 o2,
      popen env s1 = inl p /\
      let s_sp := set_process (Some p) (record (EvSpawn p (cwd s1) o1 o2) s1) in
      start cfg env s =
        try_finally (startup_timed_out cfg env p) (restore_cwd env) s_sp /\
      adds idle s_sp sf /\
      (exited env s_sp p = true ->
       startup_timed_out cfg env p s_sp =
         Raised (RuntimeError (timeout_message cfg)) s_sp))).
Proof.
  intros Hp Ht.
  assert (W : forall a b, adds preparing a b -> adds no_connect a b).
  { intros a b. apply adds_weaken. intros e [_ H]. exact H. }
  assert (N : forall l, Forall no_connect l -> filter is_connect l = []).
  { induction 1 as [|e l He _ IH]; [reflexivity|].
    simpl. unfold no_connect in He. rewrite He. exact IH. }
  destruct (start_anatomy cfg env s Hp)
    as [(e & sf & E & Ep & Ea)
       |(s1 & p & o1 & o2 & A1 & P1 & W1 & Pop & E)]; cbv zeta; rewrite E.
  - cbn [final]. split; [discriminate|].
    destruct (W _ _ Ea) as (l & T & F).
    split; [rewrite (since_app _ _ _ T); now apply N|].
    left. exists e. split; [reflexivity|]. split; [exact Ep|].
    destruct (preparing_no_spawn _ _ Ea) as (l' & T' & F').
    rewrite (since_app _ _ _ T'). now apply filter_spawn_none.
  - set (s_sp := set_process (Some p) (record (EvSpawn p (cwd s1) o1 o2) s1)).
    assert (L : wait_startup cfg env (startup_bound cfg) p (now s1) false s_sp
                = startup_timed_out cfg env p s_sp).
    { rewrite wait_startup_eq. unfold bind at 1, gets at 1.
      replace (now s_sp - now s1 <? timeout_ms cfg) with false; [reflexivity|].
      symmetry. apply Z.ltb_ge. unfold timeout_ms, s_sp.
      cbn [now set_process record]. lia. }
    assert (EQ : try_finally
                   (wait_startup cfg env (startup_bound cfg) p (now s1) false)
                   (restore_cwd env) s_sp
                 = try_finally (startup_timed_out cfg env p) (restore_cwd env) s_sp).
    { unfold try_finally. rewrite L. reflexivity. }
    rewrite EQ.
    destruct (finally_restore env (startup_timed_out cfg env p) s_sp)
      as (_ & _ & _ & Ft & Fr & _).
    destruct (idle_give_up p s_sp) as (lg & Tg & Fg).
    assert (Ng : Forall no_connect lg).
    { eapply Forall_impl; [|exact Fg]. intros e H. destruct e; try reflexivity.
      destruct H. }
    destruct (W _ _ A1) as (l1 & T1 & F1).
    assert (Tb : trace (final (startup_timed_out cfg env p s_sp))
                 = (lg ++ EvSpawn p (cwd s1) o1 o2 :: l1 ++ trace s)%list).
    { rewrite Tg. simpl. rewrite T1. reflexivity. }
    split; [|split].
    + intros s' H. specialize (Fr tt s' H).
      exact (startup_timed_out_not_returned cfg env _ _ _ Fr).
    + destruct Ft as [Ft|(d & Ft)]; rewrite Tb in Ft.
      * rewrite (since_app _ _ (lg ++ EvSpawn p (cwd s1) o1 o2 :: l1)%list)
          by (rewrite Ft, <- app_assoc; reflexivity).
        rewrite filter_app. simpl. rewrite (N lg Ng), (N l1 F1). reflexivity.
      * rewrite (since_app _ _ (EvChdir d :: lg ++ EvSpawn p (cwd s1) o1 o2 :: l1)%list)
          by (rewrite Ft; simpl; rewrite <- app_assoc; reflexivity).
        simpl. rewrite filter_app. simpl. rewrite (N lg Ng), (N l1 F1). reflexivity.
    + right. exists s1, p, o1, o2. split; [exact Pop|]. fold s_sp.
      split; [reflexivity|]. split.
      * destruct Ft as [Ft|(d & Ft)].
        -- exists lg. split; [rewrite Ft; exact Tg | exact Fg].
        -- exists (EvChdir d :: lg). split; [rewrite Ft, Tg; reflexivity|].
           constructor; [exact I | exact Fg].
      * intro Hx. unfold startup_timed_out, bind, gets, raise. rewrite Hx.
        reflexivity.
Qed.

End NoTime.

(** A timeout of zero, with a healthy launcher. *)
Lemma start_with_no_time_never_succeeds_witness :
  let sf := final (start cfg0 crash_later home) in
  (forall s', start cfg0 crash_later home <> Returned tt s') /\
  filter is_connect (since home sf) = [] /\
  ((exists e,
      start cfg0 crash_later home = Raised e sf /\ process sf = None /\
      filter is_spawn (since home sf) = []) \/
   (exists s1 p o1 o2,
      popen crash_later s1 = inl p /\
      let s_sp := set_process (Some p) (record (EvSpawn p (cwd s1) o1 o2) s1) in
      start cfg0 crash_later home =
        try_finally (startup_timed_out cfg0 crash_later p)
          (restore_cwd crash_later) s_sp /\
      adds idle s_sp sf /\
      (exited crash_later s_sp p = true ->
       startup_timed_out cfg0 crash_later p s_sp =
         Raised (RuntimeError (timeout_message cfg0)) s_sp))).
Proof.
  apply (start_with_no_time_never_succeeds cfg0 crash_later home).
  - reflexivity.
  - simpl. lia.
Defined.

(** ** Restarting *)

Section Composite.

Variable cfg : PGliteConfig.
Variable env : environ.

Lemma start_extends (s : sys) :
  process s = None -> adds unrestricted s (final (start cfg env s)).
Proof.
  intro Hp.
  assert (W : forall P a b, adds P a b -> adds unrestricted a b).
  { intros P a b. apply adds_weaken. intros; exact I. }
  destruct (start_after_cleanup cfg env s Hp)
    as (s_a & _ & (_ & Aa)
        & [(e & s_b & _ & (_ & Ba) & ->)|(s_b & _ & (_ & Ba) & ->)]);
    assert (A : adds preparing s s_b)
      by exact (frame_trans _ _ (frame_adds _) _ _ _ Aa Ba).
  - exact (W _ _ _ A).
  - apply (frame_trans _ _ (frame_adds _) _ s_b); [exact (W _ _ _ A)|].
    apply provision_extends.
Qed.

(** The first thing the shutdown sequence does is to send SIGTERM. *)
Lemma shut_down_signals (p : pid) (s s0 : sys) (new : list event) :
  shut_down env p s = Returned tt s0 ->
  trace s0 = (new ++ trace s)%list ->
  In (EvTerminate p) new.
Proof.
  unfold shut_down, try_except, terminate, kill, wait, syscall,
    log, emit, bind, gets, modify, ret, raise, raise_if.
  simpl.
  repeat (split_oracle; simpl);
    intros E T; injection E as <-; simpl in T;
    match type of T with
    | ?t = (new ++ ?base)%list =>
        let n := prefix_of t base in
        change t with (n ++ base)%list in T;
        apply app_inv_tail in T; subst new; simpl; auto 8
    end.
Qed.

(** X13. [restart] by cases.  Without a handle it is [start].  With the
    handle of a process that has exited it starts nothing: [is_running]
    is false, so [stop] is skipped, and [start] declines because the
    handle is still there.  With a live child [stop] is run first: the
    old child is sent SIGTERM and the handle is dropped.  If [stop]
    raises (the [exists()] call of its socket cleanup), [restart] raises
    the same exception from the same state and starts nothing.  If
    [stop] returns, [restart] is a [start] that finds no handle, and
    afterwards the handle is either absent (the start failed before it
    spawned) or the one child spawned by this restart. *)
Theorem restart_by_cases (s : sys) :
  (process s = None -> restart cfg env s = start cfg env s) /\
  (forall p, process s = Some p -> exited env s p = true ->
     restart cfg env s =
       Returned tt (record (EvLog WARNING "PGlite process already running") s)) /\
  (forall p, process s = Some p -> exited env s p = false ->
     let s1 := final (stop cfg env s) in
     let sf := final (restart cfg env s) in
     In (EvTerminate p) (since s s1) /\ process s1 = None /\
     ((exists e,
         stop cfg env s = Raised e s1 /\ restart cfg env s = Raised e s1 /\
         filter is_spawn (since s s1) = []) \/
      (stop cfg env s = Returned tt s1 /\
       restart cfg env s = start cfg env s1 /\
       ((process sf = None /\ filter is_spawn (since s sf) = [] /\
         exists e, restart cfg env s = Raised e sf) \/
        (exists p' d o1 o2,
           process sf = Some p' /\ work_dir sf = Some d /\
           filter is_spawn (since s sf) = [EvSpawn p' d o1 o2]))))).
Proof.
  split; [|split].
  - intro Hp. unfold restart, is_running, bind, gets, ret. rewrite Hp. reflexivity.
  - intros p Hp Hx. unfold restart, is_running.
    unfold bind at 1. unfold bind at 1, gets at 1. rewrite Hp.
    unfold bind at 1, gets at 1. rewrite Hx.
    cbv beta iota delta [negb ret].
    unfold start, bind, gets. rewrite Hp. reflexivity.
  - intros p Hp Hx.
    destruct (stop_story cfg env p s Hp)
      as (s0 & s1 & E0 & E & P1 & _ & _ & _ & _ & (lt & Tt & Ft)).
    destruct (shut_down_story env p s) as (s0' & E0' & _ & _ & new & Tn & Fn & _).
    rewrite E0 in E0'. injection E0' as <-.
    assert (R : restart cfg env s = (stop cfg env ;; start cfg env)%py s).
    { unfold restart, is_running. unfold bind at 1. unfold bind at 1, gets at 1.
      rewrite Hp. unfold bind at 1, gets at 1. rewrite Hx. reflexivity. }
    assert (T1 : trace s1 = ((lt ++ new) ++ trace s)%list)
      by (rewrite Tt, Tn; apply app_assoc).
    assert (F1 : Forall no_spawn (lt ++ new)).
    { apply Forall_app. split.
      - eapply Forall_impl; [|exact Ft]. intros e H.
        exact (proj1 (tidies_preparing _ _ H)).
      - eapply Forall_impl; [|exact Fn]. intros e H. exact (proj1 H). }
    assert (Sg : In (EvTerminate p) (since s s1)).
    { rewrite (since_app _ _ _ T1). apply in_or_app. right.
      exact (shut_down_signals p s s0 new E0 Tn). }
    cbv zeta.
    destruct E as [E|(_ & e & _ & E)].
    + assert (R' : restart cfg env s = start cfg env s1)
        by (rewrite R; unfold bind; rewrite E; reflexivity).
      rewrite R', E. cbn [final].
      split; [exact Sg|]. split; [exact P1|]. right.
      split; [reflexivity|]. split; [reflexivity|].
      destruct (start_extends s1 P1) as (l2 & T2 & _).
      assert (Sf : since s (final (start cfg env s1)) = (l2 ++ lt ++ new)%list).
      { apply since_app. rewrite T2, T1. apply app_assoc. }
      assert (S1 : since s1 (final (start cfg env s1)) = l2)
        by exact (since_app _ _ _ T2).
      rewrite Sf, filter_app, (filter_spawn_none _ F1), app_nil_r, <- S1.
      exact (start_outcomes cfg env s1 P1).
    + assert (R' : restart cfg env s = Raised e s1)
        by (rewrite R; unfold bind; rewrite E; reflexivity).
      rewrite R', E. cbn [final].
      split; [exact Sg|]. split; [exact P1|]. left. exists e.
      split; [reflexivity|]. split; [reflexivity|].
      rewrite (since_app _ _ _ T1). exact (filter_spawn_none _ F1).
Qed.

End Composite.

Lemma restart_by_cases_witness :
  let s := set_process (Some 7) home in
  let s1 := final (stop cfg2 crash_later s) in
  let sf := final (restart cfg2 crash_later s) in
  In (EvTerminate 7) (since s s1) /\ process s1 = None /\
  ((exists e,
      stop cfg2 crash_later s = Raised e s1 /\
      restart cfg2 crash_later s = Raised e s1 /\
      filter is_spawn (since s s1) = []) \/
   (stop cfg2 crash_later s = Returned tt s1 /\
    restart cfg2 crash_later s = start cfg2 crash_later s1 /\
    ((process sf = None /\ filter is_spawn (since s sf) = [] /\
      exists e, restart cfg2 crash_later s = Raised e sf) \/
     (exists p' d o1 o2,
        process sf = Some p' /\ work_dir sf = Some d /\
        filter is_spawn (since s sf) = [EvSpawn p' d o1 o2])))).
Proof.
  exact (proj2 (proj2 (restart_by_cases cfg2 crash_later
                         (set_process (Some 7) home)))
           7 eq_refl eq_refl).
Defined.

(** ** The work directory files *)

Section WorkDir.

Variable supported : string -> option ext_info.

(** The loop over the extensions fails exactly at the first name that
    [SUPPORTED_EXTENSIONS] does not have. *)
Lemma collect_extensions_stops (before after : list string) (missing : string) :
  (forall x, In x before -> supported x <> None) ->
  supported missing = None ->
  collect_extensions supported (before ++ missing :: after) = inr missing.
Proof.
  intros Hb Hm. induction before as [|x before IH]; simpl.
  - now rewrite Hm.
  - destruct (supported x) eqn:Hx; [|now destruct (Hb x (or_introl eq_refl))].
    rewrite IH; [reflexivity|]. intros y Hy. apply Hb. now right.
Qed.

(** When every name is supported, the loop yields one [require] line and
    one entry of the extensions object per name, in the order of the
    configuration, repetitions included. *)
Lemma collect_extensions_all (names : list string) (infos : list ext_info) :
  Forall2 (fun n i => supported n = Some i) names infos ->
  collect_extensions supported names =
    inl (map ext_require infos,
         map (fun ni => ext_config (fst ni) (snd ni)) (combine names infos)).
Proof.
  induction 1 as [|n i names infos Hn _ IH]; simpl; [reflexivity|].
  now rewrite Hn, IH.
Qed.

(** X15. An extension that is not supported stops the setup of the work
    directory with a [KeyError] for the first such name in the
    configured list.  This happens only when the launcher has to be
    generated; the launcher is then not written, while a package.json
    that was missing has been written already and stays. *)
Theorem unknown_extension_stops_the_setup
    (socket version work_dir : string) (has_package : bool)
    (before after : list string) (missing : string) :
  (forall x, In x before -> supported x <> None) ->
  supported missing = None ->
  workspace_files supported socket version
    (Some (before ++ missing :: after)%list) work_dir has_package false
  = SetupKeyError missing (package_write version work_dir has_package) /\
  workspace_files supported socket version
    (Some (before ++ missing :: after)%list) work_dir has_package true
  = SetupDone (package_write version work_dir has_package).
Proof.
  intros Hb Hm. unfold workspace_files, package_write.
  rewrite (collect_extensions_stops before after missing Hb Hm).
  split; reflexivity.
Qed.

(** X16. The generated launcher lists every configured extension: when
    all the names are supported and the launcher file is missing, the
    setup gets to its end, writes the launcher last (after package.json,
    if that was missing too), and the script has one [require] line and
    one entry of the extensions object per configured name, in the
    configured order and with repetitions kept, around the configured
    socket path. *)
Theorem launcher_lists_every_extension
    (socket version work_dir : string) (has_package : bool)
    (names : list string) (infos : list ext_info) :
  Forall2 (fun n i => supported n = Some i) names infos ->
  workspace_files supported socket version (Some names) work_dir has_package false
  = SetupDone
      (package_write version work_dir has_package ++
       [WriteLauncher (work_dir ++ "/pglite_manager.js")
          (js_head ++ py_join nl (map ext_require infos) ++
           js_socket_open ++ socket ++ js_body ++
           extensions_obj_str
             (map (fun ni => ext_config (fst ni) (snd ni)) (combine names infos)) ++
           js_tail)])%list.
Proof.
  intro H. unfold workspace_files, package_write, js_content, launcher_name.
  rewrite (collect_extensions_all names infos H). reflexivity.
Qed.

(** X17. The setup never overwrites a file of the work directory.  Each
    file is written at most once and only when it was missing; and when
    one write comes before another in the same setup, the first is that
    of package.json and the second that of the launcher. *)
Theorem setup_keeps_existing_files
    (socket version work_dir : string) (extensions : option (list string))
    (has_package has_launcher : bool) :
  let r := workspace_files supported socket version extensions work_dir
             has_package has_launcher in
  (forall w, In w (written r) ->
     (target w = work_dir ++ "/package.json" /\ has_package = false) \/
     (target w = work_dir ++ "/pglite_manager.js" /\ has_launcher = false)) /\
  NoDup (map target (written r)) /\
  (forall before w1 between w2 after,
     written r = (before ++ w1 :: between ++ w2 :: after)%list ->
     target w1 = work_dir ++ "/package.json" /\
     target w2 = work_dir ++ "/pglite_manager.js").
Proof.
  assert (D : work_dir ++ "/package.json" <> work_dir ++ "/pglite_manager.js").
  { induction work_dir as [|c w IH]; simpl; [discriminate|].
    intro H. injection H as H. exact (IH H). }
  assert (O : forall (l : list file_write) before w1 between w2 after,
            l = (before ++ w1 :: between ++ w2 :: after)%list ->
            (length l <= 2)%nat ->
            l = [w1; w2]).
  { intros l before w1 between w2 after -> H.
    destruct before as [|x1 before]; destruct between as [|y1 between];
      destruct after as [|z1 after]; simpl in *;
      rewrite ?length_app in H; simpl in H;
      rewrite ?length_app in H; simpl in H; try lia; reflexivity. }
  unfold workspace_files, launcher_name.
  destruct has_package, has_launcher; simpl;
    try destruct (collect_extensions supported _) as [[rs cs]|m]; simpl;
    (split; [|split]);
    try (intros w [<- | [<- | []]]; simpl; auto; fail);
    try (intros w [<- | []]; simpl; auto; fail);
    try (intros w []; fail);
    try (intros before w1 between w2 after H;
         apply O in H; [|simpl; lia];
         try discriminate H; injection H as <- <-; split; reflexivity);
    repeat constructor; simpl; intuition congruence.
Qed.

End WorkDir.

Lemma unknown_extension_stops_the_setup_witness :
  workspace_files two_extensions "/tmp/py-pglite/.s.PGSQL.5432" "0.2.0"
    (Some (["pgvector"] ++ "postgis" :: ["fuzzystrmatch"])%list)
    "/tmp/py-pglite-x7" false false
  = SetupKeyError "postgis" (package_write "0.2.0" "/tmp/py-pglite-x7" false) /\
  workspace_files two_extensions "/tmp/py-pglite/.s.PGSQL.5432" "0.2.0"
    (Some (["pgvector"] ++ "postgis" :: ["fuzzystrmatch"])%list)
    "/tmp/py-pglite-x7" false true
  = SetupDone (package_write "0.2.0" "/tmp/py-pglite-x7" false).
Proof.
  apply (unknown_extension_stops_the_setup two_extensions).
  - intros x [<- | []]. discriminate.
  - reflexivity.
Defined.

Lemma launcher_lists_every_extension_witness :
  exists script,
    workspace_files two_extensions "/tmp/py-pglite/.s.PGSQL.5432" "0.2.0"
      (Some ["pgvector"; "fuzzystrmatch"]) "/tmp/py-pglite-x7" true false
    = SetupDone [WriteLauncher "/tmp/py-pglite-x7/pglite_manager.js" script] /\
    str_in "const { vector } = require('@electric-sql/pglite/vector');" script = true /\
    str_in "const SOCKET_PATH = '/tmp/py-pglite/.s.PGSQL.5432';" script = true /\
    str_in "pgvector: vector," script = true.
Proof.
  eexists. split.
  - apply (launcher_lists_every_extension two_extensions
             "/tmp/py-pglite/.s.PGSQL.5432" "0.2.0" "/tmp/py-pglite-x7" true
             ["pgvector"; "fuzzystrmatch"]
             [mkExt "@electric-sql/pglite/vector" "vector";
              mkExt "@electric-sql/pglite/contrib/fuzzystrmatch" "fuzzystrmatch"]).
    repeat constructor.
  - repeat split; vm_compute; reflexivity.
Defined.

(** ** Dependencies *)

Section NpmFails.

Variable cfg : PGliteConfig.
Variable env : environ.

(** The calls around [npm install] answer: [exists()] on the socket
    path, [os.getcwd()], and [os.chdir] into the work directory and
    back. *)
Hypothesis exists_answers :
  forall st, exists b, path_exists env st (socket_path cfg) = inl b.
Hypothesis cwd_is_known : forall st, getcwd_error env st = None.
Hypothesis way_back : forall st d, chdir_error env st d = None.

(** X18. A failing [npm install] aborts [start] before anything is
    spawned.  With [auto_install_deps] and [node_modules_check] set, a
    work directory that can be provided and has no node_modules, and an
    [npm install] that fails with [e] (a non-zero exit status, the
    60-second timeout, npm not found), a [start] without a handle whose
    [exists()], [os.getcwd()] and [os.chdir] calls answer raises [e] as
    it is; npm was run in the work directory, nothing was spawned, and
    there is no handle afterwards. *)
Theorem failed_npm_install_aborts_start (s : sys) (d : string) (e : exn) :
  process s = None ->
  auto_install_deps cfg = true ->
  node_modules_check cfg = true ->
  (forall st, provision env st (cfg_work_dir cfg) = inl d) ->
  let wd := match cfg_work_dir cfg with Some w => w | None => d end in
  (forall st, path_exists env st (wd ++ "/node_modules") = inl false) ->
  (forall st, npm_install env st wd = inr e) ->
  exists sf,
    start cfg env s = Raised e sf /\
    process sf = None /\
    filter is_spawn (since s sf) = [] /\
    In (EvNpmInstall wd) (since s sf).
Proof.
  intros Hp Ha Hc Hprov wd Hx Hn.
  destruct (start_after_cleanup cfg env s Hp)
    as (s_a & _ & ((Ap & _) & Aa)
        & [(x & s_b & Ec & _)|(s_b & _ & ((Bp & _) & Ba) & ->)]).
  { exfalso. revert Ec. unfold _cleanup_socket. unfold bind at 1.
    rewrite exists_eq. destruct (exists_answers s_a) as ([|] & ->).
    - unfold try_except, syscall, log, emit, bind, gets, modify, ret, raise,
        raise_if.
      destruct (unlink env s_a (socket_path cfg)); discriminate.
    - discriminate. }
  destruct (preparing_no_spawn _ _ (frame_trans _ _ (frame_adds _) _ _ _ Aa Ba))
    as (l & Tl & Fl).
  set (s4 := set_cwd wd
               (record (EvChdir wd)
                  (set_original_cwd (Some (cwd s_b))
                     (set_work_dir (Some wd) (record (EvProvision wd) s_b))))).
  set (s5 := record (EvNpmInstall wd)
               (record (EvLog INFO "Installing npm dependencies...") s4)).
  assert (I : _install_dependencies cfg env wd s4 = Raised e s5).
  { unfold _install_dependencies. rewrite Ha, Hc. cbn [negb].
    unfold bind at 1. unfold bind at 1. rewrite exists_eq, Hx.
    unfold syscall, log, emit, bind, gets, modify, ret, raise. cbn [negb].
    rewrite Hn. reflexivity. }
  assert (L : launch cfg env wd s4 = Raised e s5).
  { unfold launch. unfold bind at 1. rewrite I. reflexivity. }
  destruct (restore_cwd_cases env s5)
    as (sf & [Ef|(x & d' & Ex & _)] & Fp & _ & _ & Ft);
    [|rewrite way_back in Ex; discriminate Ex].
  assert (EQ : provision_and_launch cfg env s_b = Raised e sf).
  { unfold provision_and_launch, _setup_work_dir.
    cbv beta iota delta [bind gets emit modify ret raise chdir getcwd].
    rewrite Hprov. cbv beta iota. rewrite cwd_is_known, way_back.
    change (try_finally (launch cfg env wd) (restore_cwd env) s4 = Raised e sf).
    unfold try_finally. rewrite L.
    cbv beta iota delta [bind raise]. rewrite Ef. reflexivity. }
  exists sf. split; [exact EQ|]. split.
  - rewrite Fp. unfold s5, s4. simpl. congruence.
  - assert (T5 : trace s5 =
                 ([EvNpmInstall wd; EvLog INFO "Installing npm dependencies...";
                   EvChdir wd; EvProvision wd] ++ l ++ trace s)%list).
    { unfold s5, s4. simpl. rewrite Tl. reflexivity. }
    assert (N : filter is_spawn l = []) by now apply filter_spawn_none.
    destruct Ft as [Ft|(d' & Ft)]; rewrite T5 in Ft.
    + rewrite (since_app _ _ ([EvNpmInstall wd;
                                EvLog INFO "Installing npm dependencies...";
                                EvChdir wd; EvProvision wd] ++ l)%list)
        by (rewrite Ft, <- app_assoc; reflexivity).
      split; [simpl; exact N | left; reflexivity].
    + rewrite (since_app _ _ (EvChdir d' :: [EvNpmInstall wd;
                                EvLog INFO "Installing npm dependencies...";
                                EvChdir wd; EvProvision wd] ++ l)%list)
        by (rewrite Ft; simpl; reflexivity).
      split; [simpl; exact N | right; left; reflexivity].
Qed.

End NpmFails.

Lemma failed_npm_install_aborts_start_witness :
  exists sf,
    start cfg_install npm_offline home = Raised CalledProcessError sf /\
    process sf = None /\
    filter is_spawn (since home sf) = [] /\
    In (EvNpmInstall "/tmp/py-pglite-x7") (since home sf).
Proof.
  apply (failed_npm_install_aborts_start cfg_install npm_offline
           (fun st => ex_intro _ false eq_refl)
           (fun _ => eq_refl) (fun _ _ => eq_refl) home
           "/tmp/py-pglite-x7" CalledProcessError); reflexivity.
Defined.
